(** * The SSH communicator of packer ([communicator/ssh/communicator.go])

    A shallow embedding of the three operations of the communicator,
    [Start], [Upload] and [Download], and of the parts of the Go libraries
    they call.

    The Go functions are embedded in a small monad of Go function
    activations: a computation threads the local variables its closures
    capture, the trace of the calls it made into the SSH library, its stack
    of deferred calls and the goroutines it spawned, and it may complete by
    falling through, by a [return] statement or by a [panic].  The remote
    side (what each call into the SSH library answers) is an oracle carried
    by the connection handle. *)

From Stdlib Require Import ZArith Lia.
From Stdlib.Strings Require Import Ascii String Byte.
From Stdlib Require Import DecimalString DecimalZ.
From stdpp Require Import base option list gmap strings.

Local Open Scope Z_scope.
Local Open Scope string_scope.
Local Open Scope list_scope.

(** ** Go values *)

(** A Go [error] value.  The communicator only ever distinguishes
    [*ssh.ExitError] (by a type assertion) from every other error. *)
Inductive error : Type :=
| ExitError (status : Z)
| OtherError (msg : string).

(** [exitErr.ExitStatus()]. *)
Definition ExitStatus_of (e : error) : option Z :=
  match e with
  | ExitError n => Some n
  | OtherError _ => None
  end.

(** A Go string is a sequence of bytes. *)
Definition bytes_of (s : string) : list byte := list_byte_of_string s.

(** ** [path/filepath] on a Unix host: separator [/], no volume names *)

Module filepath.

Definition Separator : ascii := "/"%char.

Definition IsPathSeparator (c : ascii) : bool := Ascii.eqb c Separator.

Fixpoint drop_seps (l : list ascii) : list ascii :=
  match l with
  | c :: l' => if IsPathSeparator c then drop_seps l' else l
  | [] => []
  end.

(** The longest prefix without a separator. *)
Fixpoint upto_sep (l : list ascii) : list ascii :=
  match l with
  | c :: l' => if IsPathSeparator c then [] else c :: upto_sep l'
  | [] => []
  end.

(** What follows the first separator, that separator included. *)
Fixpoint from_sep (l : list ascii) : list ascii :=
  match l with
  | c :: l' => if IsPathSeparator c then l else from_sep l'
  | [] => []
  end.

(** [Base]: the last element of the path.  Trailing separators are
    removed first; the empty path gives ["."], a path of separators
    only gives ["/"]. *)
Definition Base_chars (path : list ascii) : list ascii :=
  match path with
  | [] => ["."%char]
  | _ =>
      let stripped := drop_seps (rev path) in
      match rev (upto_sep stripped) with
      | [] => [Separator]
      | last => last
      end
  end.

Definition Base (path : string) : string :=
  string_of_list_ascii (Base_chars (list_ascii_of_string path)).

(** The elements of a path: the runs between separators. *)
Fixpoint elements_from (cur : list ascii) (l : list ascii) : list (list ascii) :=
  match l with
  | [] => [rev cur]
  | c :: l' =>
      if IsPathSeparator c then rev cur :: elements_from [] l'
      else elements_from (c :: cur) l'
  end.

Definition elements (l : list ascii) : list (list ascii) := elements_from [] l.

Definition dot : list ascii := ["."%char].
Definition dotdot : list ascii := ["."%char; "."%char].

Definition chars_eqb (a b : list ascii) : bool :=
  String.eqb (string_of_list_ascii a) (string_of_list_ascii b).

(** One round of the loop of [Clean], on one element.  [out] holds the
    elements written so far, the last one first; [protected] counts the
    leading [..] elements that a later [..] cannot remove (the index
    [dotdot] of the Go code). *)
Definition clean_step (rooted : bool) (st : list (list ascii) * nat)
    (el : list ascii) : list (list ascii) * nat :=
  let '(out, protected) := st in
  match el with
  | [] => st
  | _ =>
      if chars_eqb el dot then st
      else if chars_eqb el dotdot then
        if (protected <? length out)%nat then (tail out, protected)
        else if rooted then st
        else (dotdot :: out, S (length out))
      else (el :: out, protected)
  end.

Fixpoint join (els : list (list ascii)) : list ascii :=
  match els with
  | [] => []
  | [e] => e
  | e :: els' => e ++ Separator :: join els'
  end.

(** [Clean]: the shortest path equivalent to [path] by purely lexical
    processing. *)
Definition Clean_chars (path : list ascii) : list ascii :=
  match path with
  | [] => dot
  | c :: _ =>
      let rooted := IsPathSeparator c in
      let '(out, _) := foldl (clean_step rooted) ([], 0%nat) (elements path) in
      let body := join (rev out) in
      if rooted then Separator :: body
      else match body with [] => dot | _ => body end
  end.

Definition Clean (path : string) : string :=
  string_of_list_ascii (Clean_chars (list_ascii_of_string path)).

(** [Dir]: all but the last element of the path, cleaned. *)
Definition Dir_chars (path : list ascii) : list ascii :=
  Clean_chars (rev (from_sep (rev path))).

Definition Dir (path : string) : string :=
  string_of_list_ascii (Dir_chars (list_ascii_of_string path)).

End filepath.

(** The characters of a string, and the character sequences that hold no
    path separator. *)
Definition chars (s : string) : list ascii := list_ascii_of_string s.

Definition no_sep (l : list ascii) : Prop :=
  Forall (fun ch => filepath.IsPathSeparator ch = false) l.

(** ** [fmt]: the default formats of the operands the communicator prints *)

Module fmt.

Inductive operand : Type :=
| Str (s : string)
| Int (n : Z).

(** An [int] in decimal, with a minus sign when negative. *)
Definition Itoa (n : Z) : string := NilEmpty.string_of_int (Z.to_int n).

(** The [%v] format: a string as it is, an [int] in decimal. *)
Definition format (o : operand) : string :=
  match o with
  | Str s => s
  | Int n => Itoa n
  end.

(** [Sprintln]: spaces are always added between operands and a newline
    is appended. *)
Fixpoint Sprintln (ops : list operand) : string :=
  match ops with
  | [] => String "010"%char EmptyString
  | [o] => format o +:+ String "010"%char EmptyString
  | o :: ops' => format o +:+ " " +:+ Sprintln ops'
  end.

(** [Sprint] of string operands only: no space is added between them. *)
Fixpoint Sprint (ops : list operand) : string :=
  match ops with
  | [] => ""
  | o :: ops' => format o +:+ Sprint ops'
  end.

End fmt.

(** ** The SSH library ([go.crypto/ssh]) as the communicator sees it *)

Definition session : Type := nat.
Definition pipe : Type := nat.

(** What a session's [Stdin], [Stdout] or [Stderr] field is set to: a
    stream of the caller, or a [bytes.Buffer] allocated by the
    communicator. *)
Inductive stream : Type :=
| CallerStream (id : nat)
| NewBuffer (name : string).

Module ssh.

(** Opcodes of the encoded terminal modes (RFC 4254, section 8). *)
Definition ECHO : Z := 53.
Definition TTY_OP_ISPEED : Z := 128.
Definition TTY_OP_OSPEED : Z := 129.

(** [type TerminalModes map[uint8]uint32] *)
Abbreviation TerminalModes := (gmap Z Z).

(** The arguments of
    [func (s *Session) RequestPty(term string, h, w int, termmodes TerminalModes) error],
    under the names the library gives its parameters: the height comes
    before the width.  The library sends [h] as the rows and [w] as the
    columns of the [pty-req] message. *)
Record pty_request : Type := PtyRequest {
  term : string;
  h : Z;
  w : Z;
  termmodes : TerminalModes
}.

(** [Wait] on a command that ran and exited with status [status]: [nil]
    for a zero status, an [*ExitError] carrying the status otherwise. *)
Definition Wait_of_exit (status : Z) : option error :=
  if (status =? 0)%Z then None else Some (ExitError status).

End ssh.

(** [packer.RemoteCmd] *)
Record RemoteCmd : Type := {
  Command : string;
  Stdin : stream;
  Stdout : stream;
  Stderr : stream;
  Exited : bool;
  ExitStatus : Z
}.

Definition set_ExitStatus (v : Z) (cmd : RemoteCmd) : RemoteCmd :=
  {| Command := Command cmd; Stdin := Stdin cmd; Stdout := Stdout cmd;
     Stderr := Stderr cmd; Exited := Exited cmd; ExitStatus := v |}.

Definition set_Exited (b : bool) (cmd : RemoteCmd) : RemoteCmd :=
  {| Command := Command cmd; Stdin := Stdin cmd; Stdout := Stdout cmd;
     Stderr := Stderr cmd; Exited := b; ExitStatus := ExitStatus cmd |}.

(** An [io.Reader] read to its end: the bytes it yields, and the error
    that ended it when that was not [io.EOF]. *)
Record Reader : Type := {
  reader_bytes : list byte;
  reader_err : option error
}.

(** ** Traces *)

(** The calls into the SSH library with what they answered, and the
    stores to the fields of the command object. *)
Inductive event : Type :=
| EvNewSession (r : error + session)
| EvSetStdin (s : session) (x : stream)
| EvSetStdout (s : session) (x : stream)
| EvSetStderr (s : session) (x : stream)
| EvRequestPty (s : session) (req : ssh.pty_request) (r : option error)
| EvStart (s : session) (cmd : string) (r : option error)
| EvStdinPipe (s : session) (r : error + pipe)
| EvWrite (p : pipe) (data : list byte) (n : nat) (r : option error)
| EvPipeClose (p : pipe)
| EvWait (s : session) (r : option error)
| EvSessionClose (s : session)
| EvStoreExitStatus (v : Z)
| EvStoreExited (b : bool).

(** [ssh.ClientConn], with the remote side of one operation: what each
    call into the library answers.  [Write] answers by the number of
    bytes it took and an error, and may depend on how many writes the
    operation made before. *)
Record ClientConn : Type := {
  NewSession_result : error + session;
  RequestPty_result : option error;
  Start_result : option error;
  StdinPipe_result : error + pipe;
  Write_result : nat -> list byte -> nat * option error;
  Wait_result : option error
}.

(** [type comm struct { client *ssh.ClientConn }] *)
Record comm : Type := { client : ClientConn }.

Definition is_session_close (s : session) (e : event) : bool :=
  match e with EvSessionClose s' => Nat.eqb s' s | _ => false end.

Definition is_pipe_close (p : pipe) (e : event) : bool :=
  match e with EvPipeClose p' => Nat.eqb p' p | _ => false end.

Definition is_write (e : event) : bool :=
  match e with EvWrite _ _ _ _ => true | _ => false end.

Definition is_store_ExitStatus (e : event) : bool :=
  match e with EvStoreExitStatus _ => true | _ => false end.

Definition is_store_Exited (e : event) : bool :=
  match e with EvStoreExited _ => true | _ => false end.

Definition count (f : event -> bool) (tr : list event) : nat :=
  length (List.filter f tr).

Definition writes_before (tr : list event) : nat := count is_write tr.

(** The sessions and the pipes a trace creates. *)
Definition sessions_created (tr : list event) : list session :=
  omap (fun e => match e with EvNewSession (inr s) => Some s | _ => None end) tr.

Definition pipes_opened (tr : list event) : list pipe :=
  omap (fun e => match e with EvStdinPipe _ (inr p) => Some p | _ => None end) tr.

(** The writes a trace requests on a pipe, and the bytes the pipe took:
    of each write, the first [n] bytes. *)
Definition writes_requested (p : pipe) (tr : list event) : list (list byte) :=
  omap (fun e => match e with
                 | EvWrite p' data _ _ => if Nat.eqb p' p then Some data else None
                 | _ => None
                 end) tr.

Definition bytes_taken (p : pipe) (tr : list event) : list byte :=
  concat (omap (fun e => match e with
                         | EvWrite p' data n _ =>
                             if Nat.eqb p' p then Some (take n data) else None
                         | _ => None
                         end) tr).

(** The commands a trace starts on a session. *)
Definition commands_started (s : session) (tr : list event) : list string :=
  omap (fun e => match e with
                 | EvStart s' cmd _ => if Nat.eqb s' s then Some cmd else None
                 | _ => None
                 end) tr.

(** The pseudo-terminals a trace requests on a session. *)
Definition ptys_requested (s : session) (tr : list event) : list ssh.pty_request :=
  omap (fun e => match e with
                 | EvRequestPty s' req _ => if Nat.eqb s' s then Some req else None
                 | _ => None
                 end) tr.

(** The length field of a control line of the copy protocol, as its
    receiver reads it: the decimal number between the first and the
    second space. *)
Definition is_space (c : ascii) : bool := Ascii.eqb c " "%char.

Fixpoint upto_space (l : list ascii) : list ascii :=
  match l with
  | c :: l' => if is_space c then [] else c :: upto_space l'
  | [] => []
  end.

Fixpoint after_space (l : list ascii) : list ascii :=
  match l with
  | c :: l' => if is_space c then l' else after_space l'
  | [] => []
  end.

Definition declared_length (line : list byte) : option Z :=
  let field := upto_space (after_space (map ascii_of_byte line)) in
  Z.of_int <$> NilEmpty.int_of_string (string_of_list_ascii field).

(** The command object after the stores of a trace. *)
Definition store (cmd : RemoteCmd) (e : event) : RemoteCmd :=
  match e with
  | EvStoreExitStatus v => set_ExitStatus v cmd
  | EvStoreExited b => set_Exited b cmd
  | _ => cmd
  end.

Definition replay (cmd : RemoteCmd) (tr : list event) : RemoteCmd :=
  foldl store cmd tr.

(** ** Go function activations *)

(** A goroutine working on the command object: the events of its run and
    the object as it leaves it. *)
Definition task : Type := RemoteCmd -> list event * RemoteCmd.

Inductive completion (A : Type) : Type :=
| Normal (a : A)
| Returned (e : option error)
| Panicking (msg : string).
Arguments Normal {A} a.
Arguments Returned {A} e.
Arguments Panicking {A} msg.

(** [V] is the type of the variables of the function that a closure
    reads or writes after the statement that declares it. *)
Record frame (V : Type) : Type := Frame {
  vars : V;
  trace : list event;
  deferred : list (V -> list event);
  spawned : list task
}.
Arguments Frame {V} _ _ _ _.
Arguments vars {V} _.
Arguments trace {V} _.
Arguments deferred {V} _.
Arguments spawned {V} _.

Definition M (V A : Type) : Type := frame V -> completion A * frame V.

#[global] Instance M_ret {V} : MRet (M V) :=
  fun A (a : A) fr => (Normal a, fr).

#[global] Instance M_bind {V} : MBind (M V) :=
  fun A B (k : A -> M V B) (m : M V A) fr =>
    match m fr with
    | (Normal a, fr') => k a fr'
    | (Returned e, fr') => (Returned e, fr')
    | (Panicking msg, fr') => (Panicking msg, fr')
    end.

Section Statements.
Context {V : Type}.

Definition get : M V V := fun fr => (Normal (vars fr), fr).

Definition put (v : V) : M V unit := fun fr =>
  (Normal tt, Frame v (trace fr) (deferred fr) (spawned fr)).

Definition emit (e : event) : M V unit := fun fr =>
  (Normal tt, Frame (vars fr) (trace fr ++ [e]) (deferred fr) (spawned fr)).

Definition past : M V (list event) := fun fr => (Normal (trace fr), fr).

(** [defer]: the call is pushed; it runs when the function leaves. *)
Definition defer (d : V -> list event) : M V unit := fun fr =>
  (Normal tt, Frame (vars fr) (trace fr) (d :: deferred fr) (spawned fr)).

(** [go]: the goroutine is recorded; it runs on its own. *)
Definition go (t : task) : M V unit := fun fr =>
  (Normal tt, Frame (vars fr) (trace fr) (deferred fr) (spawned fr ++ [t])).

(** [return e] *)
Definition return_ {A} (e : option error) : M V A := fun fr => (Returned e, fr).

(** [panic(msg)] *)
Definition panic {A} (msg : string) : M V A := fun fr => (Panicking msg, fr).

(** [if err != nil { return err }] after a call giving a value and an error. *)
Definition or_return {A} (m : M V (error + A)) : M V A :=
  r ← m;
  match r with
  | inl err => return_ (Some err)
  | inr a => mret a
  end.

(** [if err = call; err != nil { return err }] *)
Definition or_return_err (m : M V (option error)) : M V unit :=
  r ← m;
  match r with
  | Some err => return_ (Some err)
  | None => mret tt
  end.

End Statements.

(** How a call of a function ends. *)
Inductive outcome : Type :=
| Result (e : option error)
| Panic (msg : string).

Record activation (V : Type) : Type := Activation {
  act_outcome : outcome;
  act_trace : list event;
  act_vars : V;
  act_spawned : list task
}.
Arguments Activation {V} _ _ _ _.
Arguments act_outcome {V} _.
Arguments act_trace {V} _.
Arguments act_vars {V} _.
Arguments act_spawned {V} _.

(** A call: the body runs from the initial variables, then the deferred
    calls run, the last deferred first, each on the variables as the body
    left them.  A body without a [return] statement gives no error. *)
Definition func {V} (init : V) (body : M V unit) : activation V :=
  let '(c, fr) := body (Frame init [] [] []) in
  Activation
    (match c with
     | Normal _ => Result None
     | Returned e => Result e
     | Panicking msg => Panic msg
     end)
    (trace fr ++ flat_map (fun d => d (vars fr)) (deferred fr))
    (vars fr)
    (spawned fr).

(** A goroutine from a function literal over the command object. *)
Definition goroutine (body : M RemoteCmd unit) : task := fun cmd =>
  let a := func cmd body in (act_trace a, act_vars a).

(** ** The calls into the libraries *)

Module log.
(** Logging writes to the diagnostics stream only: it leaves no event. *)
Definition Println {V} (msg : string) : M V unit := mret tt.
Definition Printf {V} (format : string) (args : list fmt.operand) : M V unit := mret tt.
End log.

Section Calls.
Context {V : Type} (conn : ClientConn).

(** [c.client.NewSession()] *)
Definition NewSession : M V (error + session) :=
  let r := NewSession_result conn in
  emit (EvNewSession r);; mret r.

(** [session.RequestPty(term, h, w, termmodes)] *)
Definition RequestPty (s : session) (req : ssh.pty_request) : M V (option error) :=
  let r := RequestPty_result conn in
  emit (EvRequestPty s req r);; mret r.

(** [session.Start(cmd)] *)
Definition Session_Start (s : session) (cmd : string) : M V (option error) :=
  let r := Start_result conn in
  emit (EvStart s cmd r);; mret r.

(** [session.StdinPipe()] *)
Definition StdinPipe (s : session) : M V (error + pipe) :=
  let r := StdinPipe_result conn in
  emit (EvStdinPipe s r);; mret r.

(** [session.Wait()] *)
Definition Wait (s : session) : M V (option error) :=
  let r := Wait_result conn in
  emit (EvWait s r);; mret r.

(** [session.Close()], whose error no caller here looks at. *)
Definition Session_Close (s : session) : list event := [EvSessionClose s].

(** [w.Write(data)] on the stdin pipe. *)
Definition Pipe_Write (p : pipe) (data : list byte) : M V (nat * option error) :=
  tr ← past;
  let r := Write_result conn (writes_before tr) data in
  emit (EvWrite p data r.1 r.2);; mret r.

(** [w.Close()] *)
Definition Pipe_Close (p : pipe) : M V unit := emit (EvPipeClose p).

(** [fmt.Fprintln(w, ops...)]: one write of the formatted line. *)
Definition Fprintln (p : pipe) (ops : list fmt.operand) : M V (nat * option error) :=
  Pipe_Write p (bytes_of (fmt.Sprintln ops)).

(** [fmt.Fprint(w, ops...)] *)
Definition Fprint (p : pipe) (ops : list fmt.operand) : M V (nat * option error) :=
  Pipe_Write p (bytes_of (fmt.Sprint ops)).

(** [io.Copy(buffer, input)] into a fresh [bytes.Buffer]: the bytes of
    the reader, or the error that ended it. *)
Definition Copy_to_buffer (input : Reader) : M V (error + list byte) :=
  mret (match reader_err input with
        | Some err => inl err
        | None => inr (reader_bytes input)
        end).

(** [io.Copy(w, buffer)] from a [bytes.Buffer]: [Buffer.WriteTo] hands
    the whole content to one [Write], and writes nothing for an empty
    buffer. *)
Definition Copy_from_buffer (p : pipe) (buf : list byte) : M V (nat * option error) :=
  match buf with
  | [] => mret (0%nat, None)
  | _ => Pipe_Write p buf
  end.

End Calls.

(** The one-byte string ["\x00"]. *)
Definition NUL : string := String "000"%char EmptyString.

(** The one-byte string ["\n"]. *)
Definition LF : string := String "010"%char EmptyString.

(** ** The communicator *)

(** A bare [return] of a function whose result parameter is [err]. *)
Definition return_named {A} : M (option error) A := err ← get; return_ err.

(** [cmd.ExitStatus = v] and [cmd.Exited = b] in the goroutine of [Start]. *)
Definition store_ExitStatus (v : Z) : M RemoteCmd unit :=
  cmd ← get; put (set_ExitStatus v cmd);; emit (EvStoreExitStatus v).

Definition store_Exited (b : bool) : M RemoteCmd unit :=
  cmd ← get; put (set_Exited b cmd);; emit (EvStoreExited b).

(** [func (c *comm) Start(cmd *packer.RemoteCmd) (err error)].  The
    variable of the activation is the result parameter [err]. *)
Definition Start (c : comm) (cmd : RemoteCmd) : activation (option error) :=
  func None (
    r ← NewSession (client c);
    put (match r with inl err => Some err | inr _ => None end);;
    match r with
    | inl _ => return_named
    | inr session =>
        (* Setup our session *)
        emit (EvSetStdin session (Stdin cmd));;
        emit (EvSetStdout session (Stdout cmd));;
        emit (EvSetStderr session (Stderr cmd));;
        (* Request a PTY *)
        let termModes : ssh.TerminalModes :=
          {[ ssh.ECHO := 0;
             ssh.TTY_OP_ISPEED := 14400;
             ssh.TTY_OP_OSPEED := 14400 ]} in
        err ← RequestPty (client c) session (ssh.PtyRequest "xterm" 80 40 termModes);
        put err;;
        match err with
        | Some _ => return_named
        | None =>
            log.Printf "starting remote command: %s" [fmt.Str (Command cmd)];;
            err ← Session_Start (client c) session (Command cmd +:+ LF);
            put err;;
            match err with
            | Some _ => return_named
            | None =>
                (* Start a goroutine to wait for the session to end and
                   set the exit boolean and status. *)
                go (goroutine (
                  defer (fun _ => Session_Close session);;
                  err ← Wait (client c) session;
                  store_ExitStatus 0;;
                  match err with
                  | Some e =>
                      match ExitStatus_of e with
                      | Some status => store_ExitStatus status
                      | None => mret tt
                      end
                  | None => mret tt
                  end;;
                  store_Exited true));;
                return_named
            end
        end
    end).

(** [func (c *comm) Upload(path string, input io.Reader) error].  The
    variable of the activation is [w], the stdin pipe, [None] for [nil]. *)
Definition Upload (c : comm) (path : string) (input : Reader) : activation (option pipe) :=
  func None (
    log.Println "Opening new SSH session";;
    session ← or_return (NewSession (client c));
    defer (fun _ => Session_Close session);;
    (* Get a pipe to stdin so that we can send data down *)
    w ← or_return (StdinPipe (client c) session);
    put (Some w);;
    (* Set stderr/stdout to a bytes buffer *)
    emit (EvSetStderr session (NewBuffer "stderr"));;
    emit (EvSetStdout session (NewBuffer "stdout"));;
    (* We only want to close once, so we nil w after we close it, and
       only close in the defer if it hasn't been closed already. *)
    defer (fun w => match w with
                    | Some p => [EvPipeClose p]
                    | None => []
                    end);;
    (* The target directory and file for talking the SCP protocol *)
    let target_dir := filepath.Dir path in
    let target_file := filepath.Base path in
    (* Start the sink mode on the other side *)
    log.Println "Starting remote scp process in sink mode";;
    or_return_err (Session_Start (client c) session ("scp -vt " +:+ target_dir));;
    (* Determine the length of the upload content by copying it into an
       in-memory buffer. *)
    log.Println "Copying input data into in-memory buffer so we can get the length";;
    input_memory ← or_return (Copy_to_buffer input);
    (* Start the protocol *)
    log.Println "Beginning file upload...";;
    Fprintln (client c) w
      [fmt.Str "C0644"; fmt.Int (Z.of_nat (length input_memory)); fmt.Str target_file];;
    Copy_from_buffer (client c) w input_memory;;
    Fprint (client c) w [fmt.Str NUL];;
    (* Close the stdin, which sends an EOF, and then set w to nil so that
       our defer func doesn't close it again. *)
    log.Println "Upload complete, closing stdin pipe";;
    Pipe_Close w;;
    put None;;
    (* Wait for the SCP connection to close. *)
    log.Println "Waiting for SSH session to complete";;
    err ← Wait (client c) session;
    match err with
    | Some e =>
        match ExitStatus_of e with
        | Some status => log.Printf "non-zero exit status: %d" [fmt.Int status]
        | None => mret tt
        end;;
        return_ (Some e)
    | None =>
        log.Printf "scp stdout (length %d): %#v" [];;
        log.Printf "scp stderr (length %d): %s" [];;
        return_ None
    end).

(** [func (c *comm) Download(string, io.Writer) error] *)
Definition Download {Writer : Type} (c : comm) (_ : string) (_ : Writer) : activation unit :=
  func tt (panic "not implemented yet").

(** The connection [conn] with another behaviour of the stdin pipe. *)
Definition with_Write_result (conn : ClientConn)
    (wr : nat -> list byte -> nat * option error) : ClientConn :=
  {| NewSession_result := NewSession_result conn;
     RequestPty_result := RequestPty_result conn;
     Start_result := Start_result conn;
     StdinPipe_result := StdinPipe_result conn;
     Write_result := wr;
     Wait_result := Wait_result conn |}.

(** ** A call of [Start] with the goroutines it spawned run to their end *)

Definition run_spawned (ts : list task) (cmd : RemoteCmd) : list event * RemoteCmd :=
  foldl (fun acc t => let '(tr, cmd') := t acc.2 in (acc.1 ++ tr, cmd')) ([], cmd) ts.

Record completed : Type := Completed {
  returned : outcome;
  call_trace : list event;
  background_trace : list event;
  final_cmd : RemoteCmd
}.

Definition Start_completed (c : comm) (cmd : RemoteCmd) : completed :=
  let a := Start c cmd in
  let '(tr, cmd') := run_spawned (act_spawned a) cmd in
  Completed (act_outcome a) (act_trace a) tr cmd'.

(** ** Sample runs *)

(** A remote side on which every step succeeds, the pipe takes every
    write in full and the remote process exits with status [status]. *)
Definition remote_exiting (status : Z) : ClientConn :=
  {| NewSession_result := inr 1%nat;
     RequestPty_result := None;
     Start_result := None;
     StdinPipe_result := inr 2%nat;
     Write_result := fun _ data => (length data, None);
     Wait_result := ssh.Wait_of_exit status |}.

(** The same with a stdin pipe that is broken from the first write on. *)
Definition remote_broken_pipe : ClientConn :=
  with_Write_result (remote_exiting 0) (fun _ _ => (0%nat, Some (OtherError "EOF"))).

(** A remote side that grants the session and refuses the pseudo-terminal. *)
Definition remote_refusing_pty : ClientConn :=
  {| NewSession_result := inr 1%nat;
     RequestPty_result := Some (OtherError "ssh: could not execute command pty-req");
     Start_result := None;
     StdinPipe_result := inr 2%nat;
     Write_result := fun _ data => (length data, None);
     Wait_result := None |}.

(** A remote side that grants the session and the pipe and refuses to
    start the command. *)
Definition remote_refusing_start : ClientConn :=
  {| NewSession_result := inr 1%nat;
     RequestPty_result := None;
     Start_result := Some (OtherError "ssh: could not execute command");
     StdinPipe_result := inr 2%nat;
     Write_result := fun _ data => (length data, None);
     Wait_result := None |}.

(** A remote side that refuses the session. *)
Definition remote_refusing_session : ClientConn :=
  {| NewSession_result := inl (OtherError "ssh: unexpected packet");
     RequestPty_result := None;
     Start_result := None;
     StdinPipe_result := inr 2%nat;
     Write_result := fun _ data => (length data, None);
     Wait_result := None |}.

Definition a_command (text : string) : RemoteCmd :=
  {| Command := text;
     Stdin := CallerStream 0; Stdout := CallerStream 1; Stderr := CallerStream 2;
     Exited := false; ExitStatus := 0 |}.

Definition a_reader (content : string) : Reader :=
  {| reader_bytes := bytes_of content; reader_err := None |}.


(** ** More observations on traces *)

Definition is_wait (e : event) : bool :=
  match e with EvWait _ _ => true | _ => false end.

Definition is_request_pty (e : event) : bool :=
  match e with EvRequestPty _ _ _ => true | _ => false end.

Definition is_start (e : event) : bool :=
  match e with EvStart _ _ _ => true | _ => false end.

Definition is_set_stdin (e : event) : bool :=
  match e with EvSetStdin _ _ => true | _ => false end.

Definition is_set_stream (e : event) : bool :=
  match e with
  | EvSetStdin _ _ | EvSetStdout _ _ | EvSetStderr _ _ => true
  | _ => false
  end.

Definition is_pipe_event (e : event) : bool :=
  match e with
  | EvStdinPipe _ _ | EvWrite _ _ _ _ | EvPipeClose _ => true
  | _ => false
  end.

(** The character sequences made of path separators only. *)
Definition all_sep (l : list ascii) : Prop :=
  Forall (fun ch => filepath.IsPathSeparator ch = true) l.

(** No event of kind [P] comes after an event of kind [Q]. *)
Definition never_after (P Q : event -> bool) (tr : list event) : Prop :=
  forall pre e post, tr = pre ++ e :: post -> Q e = true -> count P post = 0%nat.

(** Every event of kind [Q] has an event of kind [P] before it. *)
Definition always_before (P Q : event -> bool) (tr : list event) : Prop :=
  forall pre e post, tr = pre ++ e :: post -> Q e = true -> (1 <= count P pre)%nat.

(** The two, decided on a trace. *)
Fixpoint never_after_b (P Q : event -> bool) (tr : list event) : bool :=
  match tr with
  | [] => true
  | e :: tr' =>
      (negb (Q e) || forallb (fun x => negb (P x)) tr') && never_after_b P Q tr'
  end.

Fixpoint always_before_b (P Q : event -> bool) (seen : bool) (tr : list event) : bool :=
  match tr with
  | [] => true
  | e :: tr' => (negb (Q e) || seen) && always_before_b P Q (seen || P e) tr'
  end.

(** The connection [conn] with another answer of the wait. *)
Definition with_Wait_result (conn : ClientConn) (wt : option error) : ClientConn :=
  {| NewSession_result := NewSession_result conn;
     RequestPty_result := RequestPty_result conn;
     Start_result := Start_result conn;
     StdinPipe_result := StdinPipe_result conn;
     Write_result := Write_result conn;
     Wait_result := wt |}.

(** A source that fails after [content]. *)
Definition a_failing_reader (content : string) : Reader :=
  {| reader_bytes := bytes_of content;
     reader_err := Some (OtherError "unexpected EOF") |}.

(** A command object that an earlier run left marked as exited. *)
Definition a_finished_command (text : string) (status : Z) : RemoteCmd :=
  {| Command := text;
     Stdin := CallerStream 0; Stdout := CallerStream 1; Stderr := CallerStream 2;
     Exited := true; ExitStatus := status |}.

(** ** The stack of [Clean] *)

(** The state of the loop of [Clean] after the elements of [path]. *)
Definition Clean_state (rooted : bool) (path : list ascii) : list (list ascii) * nat :=
  foldl (filepath.clean_step rooted) ([], 0%nat) (filepath.elements path).

(** The path [Clean] returns for a stack [out]. *)
Definition Clean_render (rooted : bool) (out : list (list ascii)) : list ascii :=
  let body := filepath.join (rev out) in
  if rooted then filepath.Separator :: body
  else match body with [] => filepath.dot | _ => body end.

(** An element that [Clean] keeps as it is: not empty, without separator,
    and neither [.] nor [..]. *)
Definition kept_element (el : list ascii) : Prop :=
  el <> [] /\ no_sep el /\ el <> filepath.dot /\ el <> filepath.dotdot.

(** The stacks [Clean] builds: kept elements on top of [protected]
    elements [..], and no [..] at all in a rooted path. *)
Definition clean_stack (rooted : bool) (st : list (list ascii) * nat) : Prop :=
  exists kept,
    st.1 = kept ++ repeat filepath.dotdot st.2
    /\ Forall kept_element kept
    /\ (rooted = true -> st.2 = 0%nat).

(** * Properties *)

(** ** Running an activation *)

Ltac open_conn c := destruct c as [[ns pty st sp wr wt]]; simpl in *.

(** Unfolds the statements of the embedding, and nothing of the data
    they carry. *)
Ltac run :=
  lazy beta iota zeta delta
    [Upload Start Download Start_completed run_spawned func goroutine
     mbind M_bind mret M_ret get put emit past defer go return_ panic
     or_return or_return_err return_named store_ExitStatus store_Exited
     NewSession RequestPty Session_Start StdinPipe Wait Session_Close Pipe_Write
     Pipe_Close Fprintln Fprint Copy_to_buffer Copy_from_buffer
     log.Println log.Printf client with_Write_result
     NewSession_result RequestPty_result Start_result StdinPipe_result
     Write_result Wait_result reader_err reader_bytes ExitStatus_of
     vars trace deferred spawned act_outcome act_trace act_vars act_spawned
     returned call_trace background_trace final_cmd
     flat_map foldl app].

(** Counting and collecting over a trace whose handles are variables. *)
Ltac observe_step :=
  cbn [omap list_omap List.filter length concat app head
       is_pipe_close is_session_close is_write is_store_ExitStatus
       is_store_Exited store foldl set_ExitStatus set_Exited
       Exited ExitStatus Command fst snd].

Ltac observe :=
  unfold count, writes_requested, bytes_taken, commands_started,
    ptys_requested, sessions_created, pipes_opened, replay;
  observe_step; rewrite ?Nat.eqb_refl; observe_step.

(** ** The library models on the tables of Go's own tests *)

Example Clean_table :
  map filepath.Clean
    ["abc"; "abc/def"; "a/b/c"; "."; ".."; "../.."; "../../abc"; "/abc"; "/"; "";
     "abc/"; "abc/def/"; "a/b/c/"; "./"; "../"; "../../"; "/abc/";
     "abc//def//ghi"; "//abc"; "///abc"; "//abc//"; "abc//";
     "abc/./def"; "/./abc/def"; "abc/.";
     "abc/def/ghi/../jkl"; "abc/def/../ghi/../jkl"; "abc/def/.."; "abc/def/../..";
     "/abc/def/../.."; "abc/def/../../.."; "/abc/def/../../..";
     "abc/def/../../../ghi/jkl/../../../mno"; "/../abc";
     "abc/./../def"; "abc//./../def"; "abc/../../././../def"]
  = ["abc"; "abc/def"; "a/b/c"; "."; ".."; "../.."; "../../abc"; "/abc"; "/"; ".";
     "abc"; "abc/def"; "a/b/c"; "."; ".."; "../.."; "/abc";
     "abc/def/ghi"; "/abc"; "/abc"; "/abc"; "abc";
     "abc/def"; "/abc/def"; "abc";
     "abc/def/jkl"; "abc/jkl"; "abc"; ".";
     "/"; ".."; "/";
     "../../mno"; "/abc";
     "def"; "def"; "../../def"].
Proof. reflexivity. Qed.

Example Dir_table :
  map filepath.Dir
    [""; "."; "/."; "/"; "////"; "/foo"; "x/"; "abc"; "abc/def"; "a/b/.x";
     "a/b/c."; "a/b/c.x"; "/home/u/out.txt"]
  = ["."; "."; "/"; "/"; "/"; "/"; "x"; "."; "abc"; "a/b"; "a/b"; "a/b"; "/home/u"].
Proof. reflexivity. Qed.

Example Base_table :
  map filepath.Base
    [""; "."; "/."; "/"; "////"; "x/"; "abc"; "abc/def"; "a/b/.x"; "a/b/c.";
     "a/b/c.x"; "/home/u/out.txt"]
  = ["."; "."; "."; "/"; "/"; "x"; "abc"; "def"; ".x"; "c."; "c.x"; "out.txt"].
Proof. reflexivity. Qed.

Example Itoa_table :
  map fmt.Itoa [0; 5; 10; 1024; 4294967296; -3]
  = ["0"; "5"; "10"; "1024"; "4294967296"; "-3"].
Proof. reflexivity. Qed.

Example Sprintln_line :
  fmt.Sprintln [fmt.Str "C0644"; fmt.Int 5; fmt.Str "out.txt"] = "C0644 5 out.txt" +:+ LF.
Proof. reflexivity. Qed.

(** ** Strings and bytes *)

Lemma list_ascii_of_string_app (a b : string) :
  list_ascii_of_string (a +:+ b) = list_ascii_of_string a ++ list_ascii_of_string b.
Proof. induction a as [|ch a IH]; simpl; [reflexivity | now rewrite IH]. Qed.

Lemma string_of_list_ascii_app (a b : list ascii) :
  string_of_list_ascii (a ++ b) = string_of_list_ascii a +:+ string_of_list_ascii b.
Proof. induction a as [|ch a IH]; simpl; [reflexivity | now rewrite IH]. Qed.

Lemma ascii_of_bytes_of (s : string) :
  map ascii_of_byte (bytes_of s) = list_ascii_of_string s.
Proof.
  unfold bytes_of, list_byte_of_string.
  induction (list_ascii_of_string s) as [|ch l IH]; simpl; [reflexivity|].
  now rewrite ascii_of_byte_of_ascii, IH.
Qed.

Lemma bytes_of_app (a b : string) : bytes_of (a +:+ b) = bytes_of a ++ bytes_of b.
Proof.
  unfold bytes_of, list_byte_of_string.
  now rewrite list_ascii_of_string_app, map_app.
Qed.

(** ** Decimal numerals *)

Lemma uint_no_space (d : Decimal.uint) :
  Forall (fun ch => is_space ch = false)
         (list_ascii_of_string (NilEmpty.string_of_uint d)).
Proof. induction d; simpl; constructor; auto. Qed.

Lemma Itoa_no_space (n : Z) :
  Forall (fun ch => is_space ch = false) (list_ascii_of_string (fmt.Itoa n)).
Proof.
  unfold fmt.Itoa. destruct (Z.to_int n); simpl.
  - apply uint_no_space.
  - constructor; [reflexivity | apply uint_no_space].
Qed.

Lemma upto_space_app (field rest : list ascii) :
  Forall (fun ch => is_space ch = false) field ->
  upto_space (field ++ " "%char :: rest) = field.
Proof.
  induction 1 as [|ch field Hch _ IH]; simpl; [reflexivity|].
  now rewrite Hch, IH.
Qed.

(** Reading a numeral that [Itoa] wrote gives the number back. *)
Lemma Itoa_read_back (n : Z) :
  Z.of_int <$> NilEmpty.int_of_string (fmt.Itoa n) = Some n.
Proof.
  unfold fmt.Itoa. rewrite NilEmpty.isi. simpl. now rewrite DecimalZ.of_to.
Qed.

Lemma declared_length_control_line (n : Z) (name : string) :
  declared_length (bytes_of ("C0644 " +:+ fmt.Itoa n +:+ " " +:+ name +:+ LF)) = Some n.
Proof.
  unfold declared_length. rewrite ascii_of_bytes_of.
  rewrite (list_ascii_of_string_app "C0644 "), (list_ascii_of_string_app (fmt.Itoa n)).
  simpl.
  rewrite upto_space_app by apply Itoa_no_space.
  rewrite string_of_list_ascii_of_string. apply Itoa_read_back.
Qed.

(** ** Paths *)

Lemma no_sep_rev (l : list ascii) : no_sep l -> no_sep (rev l).
Proof. apply List.Forall_rev. Qed.

Lemma upto_sep_app (el rest : list ascii) :
  no_sep el -> filepath.upto_sep (el ++ "/"%char :: rest) = el.
Proof.
  induction 1 as [|ch el Hch _ IH]; simpl; [reflexivity|].
  now rewrite Hch, IH.
Qed.

Lemma from_sep_app (el rest : list ascii) :
  no_sep el -> filepath.from_sep (el ++ "/"%char :: rest) = "/"%char :: rest.
Proof.
  induction 1 as [|ch el Hch _ IH]; simpl; [reflexivity|].
  now rewrite Hch, IH.
Qed.

Lemma Base_chars_nonempty (path : list ascii) :
  path <> [] ->
  filepath.Base_chars path =
    match rev (filepath.upto_sep (filepath.drop_seps (rev path))) with
    | [] => [filepath.Separator]
    | last => last
    end.
Proof. destruct path; [contradiction | reflexivity]. Qed.

Lemma drop_seps_no_sep (el rest : list ascii) :
  el <> [] -> no_sep el -> filepath.drop_seps (el ++ rest) = el ++ rest.
Proof.
  intros Hne Hel. destruct Hel as [|ch el Hch _]; [contradiction|].
  simpl. now rewrite Hch.
Qed.

(** The last element of [dir/name] is [name], for a name that is not
    empty and holds no separator. *)
Lemma Base_chars_join (dir name : list ascii) :
  name <> [] -> no_sep name ->
  filepath.Base_chars (dir ++ "/"%char :: name) = name.
Proof.
  intros Hne Hname.
  rewrite Base_chars_nonempty by (now destruct dir).
  rewrite rev_app_distr. simpl. rewrite <- app_assoc. simpl.
  assert (Hrev : rev name <> []).
  { intros E. apply (f_equal (@rev ascii)) in E. now rewrite rev_involutive in E. }
  rewrite drop_seps_no_sep, upto_sep_app, rev_involutive; auto using no_sep_rev.
  destruct name; [contradiction | reflexivity].
Qed.

(** The directory of [dir/name] is the cleaned [dir/], for a name that
    holds no separator. *)
Lemma Dir_chars_join (dir name : list ascii) :
  no_sep name ->
  filepath.Dir_chars (dir ++ "/"%char :: name) = filepath.Clean_chars (dir ++ ["/"%char]).
Proof.
  intros Hname. unfold filepath.Dir_chars.
  rewrite rev_app_distr. simpl. rewrite <- app_assoc. simpl.
  rewrite from_sep_app by now apply no_sep_rev.
  simpl. now rewrite rev_involutive.
Qed.

Lemma Base_join (dir name : string) :
  name <> "" -> no_sep (chars name) ->
  filepath.Base (dir +:+ "/" +:+ name) = name.
Proof.
  intros Hne Hname. unfold filepath.Base.
  rewrite !list_ascii_of_string_app. simpl.
  rewrite Base_chars_join; [apply string_of_list_ascii_of_string | | exact Hname].
  destruct name; [contradiction | discriminate].
Qed.

Lemma Dir_join (dir name : string) :
  no_sep (chars name) ->
  filepath.Dir (dir +:+ "/" +:+ name) = filepath.Clean (dir +:+ "/").
Proof.
  intros Hname. unfold filepath.Dir, filepath.Clean.
  rewrite !list_ascii_of_string_app. simpl.
  now rewrite Dir_chars_join.
Qed.

(** ** What [Upload] prints *)

Lemma Sprintln_control_line (n : Z) (name : string) :
  fmt.Sprintln [fmt.Str "C0644"; fmt.Int n; fmt.Str name]
  = "C0644 " +:+ fmt.Itoa n +:+ " " +:+ name +:+ LF.
Proof. reflexivity. Qed.

Lemma Sprint_NUL : bytes_of (fmt.Sprint [fmt.Str NUL]) = [x00].
Proof. reflexivity. Qed.

(** ** [Upload] *)

(** C1: when the upload reaches the copy protocol (the session, the pipe
    and the remote receiver were obtained and the source was read), for
    every payload, empty or with NUL bytes in it, the writes [Upload]
    makes on the stdin pipe are the control line
    ["C0644 " + decimal length + " " + Base(remotePath) + "\n"], then the
    payload in one piece (no write at all for an empty payload), then one
    NUL byte; the length the control line declares is the number of
    payload bytes; and a pipe that takes every write in full receives
    exactly this line, this payload and this NUL byte. *)
Theorem Upload_frames_payload (c : comm) (path : string) (input : Reader)
    (s : session) (p : pipe) :
  NewSession_result (client c) = inr s ->
  StdinPipe_result (client c) = inr p ->
  Start_result (client c) = None ->
  reader_err input = None ->
  let payload := reader_bytes input in
  let line := bytes_of ("C0644 " +:+ fmt.Itoa (Z.of_nat (length payload)) +:+ " "
                        +:+ filepath.Base path +:+ LF) in
  let tr := act_trace (Upload c path input) in
  writes_requested p tr
    = [line] ++ match payload with [] => [] | _ => [payload] end ++ [[x00]]
  /\ declared_length line = Some (Z.of_nat (length payload))
  /\ ((forall k data, (Write_result (client c) k data).1 = length data) ->
      bytes_taken p tr = line ++ payload ++ [x00]).
Proof.
  intros Hs Hp Hst Hin payload line tr. subst payload line tr.
  split; [|split; [apply declared_length_control_line|]].
  - open_conn c. destruct input as [bs re]. simpl in *. subst.
    destruct bs as [|b bs], wt as [[status|msg]|]; run; observe;
      now rewrite Sprintln_control_line, Sprint_NUL.
  - intros Hfull. open_conn c. destruct input as [bs re]. simpl in *. subst.
    destruct bs as [|b bs], wt as [[status|msg]|]; run; observe;
      rewrite ?Hfull, ?firstn_all, ?app_nil_r, Sprintln_control_line;
      reflexivity.
Qed.

(** The scenario of the upload of five bytes: [Upload("/home/u/out.txt", bytes("hello"))]. *)
Lemma Upload_frames_payload_witness :
  let c := {| client := remote_exiting 0 |} in
  let tr := act_trace (Upload c "/home/u/out.txt" (a_reader "hello")) in
  writes_requested 2%nat tr
    = [bytes_of ("C0644 5 out.txt" +:+ LF); bytes_of "hello"; [x00]]
  /\ declared_length (bytes_of ("C0644 5 out.txt" +:+ LF)) = Some 5
  /\ bytes_taken 2%nat tr = bytes_of ("C0644 5 out.txt" +:+ LF) ++ bytes_of "hello" ++ [x00].
Proof.
  intros c tr.
  destruct (Upload_frames_payload c "/home/u/out.txt" (a_reader "hello") 1%nat 2%nat
              eq_refl eq_refl eq_refl eq_refl) as (Hw & Hd & Hb).
  split; [exact Hw | split; [exact Hd | apply Hb; intros; reflexivity]].
Defined.

(** C4: in every call of [Upload] that obtained the stdin pipe, the pipe
    is closed exactly once: by the explicit close when the call got to
    it, after which [w] is [nil] and the deferred close does nothing, and
    by the deferred close when the call left earlier, with [w] still the
    pipe. *)
Theorem Upload_closes_pipe_once (c : comm) (path : string) (input : Reader)
    (s : session) (p : pipe) :
  NewSession_result (client c) = inr s ->
  StdinPipe_result (client c) = inr p ->
  let a := Upload c path input in
  count (is_pipe_close p) (act_trace a) = 1%nat
  /\ pipes_opened (act_trace a) = [p]
  /\ (Start_result (client c) = None -> reader_err input = None -> act_vars a = None)
  /\ (Start_result (client c) <> None \/ reader_err input <> None -> act_vars a = Some p).
Proof.
  intros Hs Hp a. subst a. open_conn c. destruct input as [bs re]. simpl in *. subst.
  remember (Z.of_nat (length bs)) as n.
  destruct st as [e|]; [|destruct re as [e|]; [|destruct bs as [|b bs], wt as [[status|msg]|]]];
    run; observe; (split; [reflexivity|split; [reflexivity|split]]);
    try reflexivity; try discriminate; intros [H|H]; congruence.
Qed.

Lemma Upload_closes_pipe_once_witness :
  let a := Upload {| client := remote_refusing_start |} "/home/u/out.txt" (a_reader "hello") in
  count (is_pipe_close 2%nat) (act_trace a) = 1%nat /\ act_vars a = Some 2%nat.
Proof.
  intros a.
  destruct (Upload_closes_pipe_once {| client := remote_refusing_start |}
              "/home/u/out.txt" (a_reader "hello") 1%nat 2%nat eq_refl eq_refl)
    as (Hone & _ & _ & Hdeferred).
  split; [exact Hone | apply Hdeferred; left; discriminate].
Defined.

(** C9: for every remote path, a call of [Upload] that obtained its
    session and pipe starts exactly one remote command, ["scp -vt "]
    followed by [Dir(remotePath)], and when the protocol is reached the
    control line it writes first carries [Base(remotePath)] as the file
    name.  For a path [dir/name] whose [name] is not empty and holds no
    separator, [Base] is [name] and [Dir] is the cleaned [dir/]. *)
Theorem Upload_starts_sink_in_dir (c : comm) (path : string) (input : Reader)
    (s : session) (p : pipe) :
  NewSession_result (client c) = inr s ->
  StdinPipe_result (client c) = inr p ->
  let tr := act_trace (Upload c path input) in
  commands_started s tr = ["scp -vt " +:+ filepath.Dir path]
  /\ (Start_result (client c) = None -> reader_err input = None ->
      head (writes_requested p tr)
      = Some (bytes_of ("C0644 " +:+ fmt.Itoa (Z.of_nat (length (reader_bytes input)))
                        +:+ " " +:+ filepath.Base path +:+ LF)))
  /\ (forall dir name : string,
        path = dir +:+ "/" +:+ name -> name <> "" -> no_sep (chars name) ->
        filepath.Base path = name /\ filepath.Dir path = filepath.Clean (dir +:+ "/")).
Proof.
  intros Hs Hp tr. subst tr.
  split; [|split].
  - open_conn c. destruct input as [bs re]. simpl in *. subst.
    destruct st as [e|]; [|destruct re as [e|]; [|destruct bs as [|b bs], wt as [[status|msg]|]]];
      run; observe; reflexivity.
  - intros Hst Hin. open_conn c. destruct input as [bs re]. simpl in *. subst.
    destruct bs as [|b bs], wt as [[status|msg]|]; run; observe;
      now rewrite Sprintln_control_line.
  - intros dir name -> Hne Hname. split; [now apply Base_join | now apply Dir_join].
Qed.

Lemma Upload_starts_sink_in_dir_witness :
  let tr := act_trace (Upload {| client := remote_exiting 0 |} "/home/u/out.txt"
                         (a_reader "hello")) in
  commands_started 1%nat tr = ["scp -vt /home/u"]
  /\ head (writes_requested 2%nat tr) = Some (bytes_of ("C0644 5 out.txt" +:+ LF))
  /\ filepath.Base "/home/u/out.txt" = "out.txt".
Proof.
  intros tr.
  destruct (Upload_starts_sink_in_dir {| client := remote_exiting 0 |} "/home/u/out.txt"
              (a_reader "hello") 1%nat 2%nat eq_refl eq_refl) as (Hcmd & Hline & Hpath).
  split; [exact Hcmd | split; [exact (Hline eq_refl eq_refl)|]].
  apply (Hpath "/home/u" "out.txt"); [reflexivity | discriminate |].
  repeat constructor.
Defined.

(** C10: once the remote receiver was started and the source was read,
    the error [Upload] returns is the one of the wait on the receiver,
    [nil] when the wait gave none, whatever the writes of the control
    line, the payload and the NUL byte on the stdin pipe answered. *)
Theorem Upload_returns_wait_error (c : comm) (path : string) (input : Reader)
    (s : session) (p : pipe) (answers : nat -> list byte -> nat * option error) :
  NewSession_result (client c) = inr s ->
  StdinPipe_result (client c) = inr p ->
  Start_result (client c) = None ->
  reader_err input = None ->
  act_outcome (Upload {| client := with_Write_result (client c) answers |} path input)
  = Result (Wait_result (client c)).
Proof.
  intros Hs Hp Hst Hin. open_conn c. destruct input as [bs re]. simpl in *. subst.
  remember (Z.of_nat (length bs)) as n.
  destruct bs as [|b bs], wt as [[status|msg]|]; run; reflexivity.
Qed.

Lemma Upload_returns_wait_error_witness :
  act_outcome (Upload {| client := remote_broken_pipe |} "/home/u/out.txt" (a_reader "hello"))
  = Result None
  /\ EvWrite 2%nat [x00] 0 (Some (OtherError "EOF"))
     ∈ act_trace (Upload {| client := remote_broken_pipe |} "/home/u/out.txt" (a_reader "hello")).
Proof.
  split.
  - exact (Upload_returns_wait_error {| client := remote_exiting 0 |} "/home/u/out.txt"
             (a_reader "hello") 1%nat 2%nat (fun _ _ => (0%nat, Some (OtherError "EOF")))
             eq_refl eq_refl eq_refl eq_refl).
  - vm_compute. repeat constructor.
Defined.

(** ** [Download] *)

(** C6: for every remote path and every sink, [Download] panics with
    ["not implemented yet"]: it makes no call, and it returns no result,
    neither [nil] nor an error. *)
Theorem Download_panics {Writer : Type} (c : comm) (path : string) (sink : Writer) :
  act_outcome (Download c path sink) = Panic "not implemented yet"
  /\ act_trace (Download c path sink) = []
  /\ forall e, act_outcome (Download c path sink) <> Result e.
Proof. split; [reflexivity | split; [reflexivity | discriminate]]. Qed.

(** ** [Start] *)

(** The prefixes of an explicit trace, one goal for each. *)
Ltac split_prefix seen H :=
  destruct seen as [|? seen]; simpl in H;
  [ subst | first [discriminate H | injection H as <- H; split_prefix seen H] ].

(** C5: when [Start] has started the command, the goroutine it spawned
    waits for the command and then sets the exit status: 0 when the wait
    gave no error, the status of the [*ssh.ExitError] when it gave one,
    0 for any other error; the store that marks the command as exited
    comes after every store of the exit status.  A command exiting with
    status 7 is left with exit status 7. *)
Theorem Start_records_exit_status (c : comm) (cmd : RemoteCmd) (s : session) :
  NewSession_result (client c) = inr s ->
  RequestPty_result (client c) = None ->
  Start_result (client c) = None ->
  let r := Start_completed c cmd in
  ExitStatus (final_cmd r)
    = match Wait_result (client c) with
      | None => 0
      | Some (ExitError status) => status
      | Some (OtherError _) => 0
      end
  /\ Exited (final_cmd r) = true
  /\ final_cmd r = replay cmd (background_trace r)
  /\ (exists before after,
        background_trace r = before ++ EvStoreExited true :: after
        /\ (1 <= count is_store_ExitStatus before)%nat
        /\ count is_store_Exited before = 0%nat
        /\ count is_store_ExitStatus after = 0%nat
        /\ count is_store_Exited after = 0%nat)
  /\ (forall status,
        Wait_result (client c) = ssh.Wait_of_exit status ->
        ExitStatus (final_cmd r) = status).
Proof.
  intros Hs Hpty Hst r. subst r. open_conn c. subst.
  split; [|split; [|split; [|split]]].
  - destruct wt as [[status|msg]|]; run; reflexivity.
  - destruct wt as [[status|msg]|]; run; reflexivity.
  - destruct wt as [[status|msg]|]; run; reflexivity.
  - destruct wt as [[status|msg]|]; run.
    + exists [EvWait s (Some (ExitError status)); EvStoreExitStatus 0;
              EvStoreExitStatus status], [EvSessionClose s].
      observe. repeat split; lia.
    + exists [EvWait s (Some (OtherError msg)); EvStoreExitStatus 0], [EvSessionClose s].
      observe. repeat split; lia.
    + exists [EvWait s None; EvStoreExitStatus 0], [EvSessionClose s].
      observe. repeat split; lia.
  - intros status Hw. unfold ssh.Wait_of_exit in Hw.
    destruct (Z.eqb_spec status 0) as [Heq|Hne]; subst; run; reflexivity.
Qed.

(** The scenario of a command exiting with 7: [Start("exit 7")]. *)
Lemma Start_records_exit_status_witness :
  let r := Start_completed {| client := remote_exiting 7 |} (a_command "exit 7") in
  ExitStatus (final_cmd r) = 7 /\ Exited (final_cmd r) = true.
Proof.
  intros r.
  destruct (Start_records_exit_status {| client := remote_exiting 7 |} (a_command "exit 7")
              1%nat eq_refl eq_refl eq_refl) as (_ & Hex & _ & _ & Hst).
  split; [exact (Hst 7 eq_refl) | exact Hex].
Defined.

(** C2, as the code has it: in a call of [Start] that returns no error,
    the goroutine stores the exited flag exactly once and the exit status
    once, or twice when the wait gave an [*ssh.ExitError] (0, then the
    status of the error); a reader that has seen the exited flag true, on
    a command that was not marked exited before, sees the final exit
    status, and no store follows.  In a call that returns an error,
    neither field is stored. *)
Theorem Start_stores_before_exited (c : comm) (cmd : RemoteCmd) :
  Exited cmd = false ->
  let r := Start_completed c cmd in
  let all := call_trace r ++ background_trace r in
  (returned r = Result None ->
     count is_store_Exited all = 1%nat
     /\ count is_store_ExitStatus all
        = match Wait_result (client c) with
          | Some (ExitError _) => 2%nat
          | _ => 1%nat
          end
     /\ forall seen rest,
          background_trace r = seen ++ rest ->
          Exited (replay cmd seen) = true ->
          ExitStatus (replay cmd seen) = ExitStatus (final_cmd r)
          /\ count is_store_ExitStatus rest = 0%nat
          /\ count is_store_Exited rest = 0%nat)
  /\ (returned r <> Result None ->
      count is_store_Exited all = 0%nat
      /\ count is_store_ExitStatus all = 0%nat
      /\ final_cmd r = cmd).
Proof.
  intros Hfresh r all. subst all r. open_conn c.
  destruct ns as [e|s]; [|destruct pty as [e|]; [|destruct st as [e|]]].
  1-3: run; observe; split; [discriminate | intros _; repeat split].
  split; [intros _ | intros H; exfalso; apply H; destruct wt as [[status|msg]|]; run; reflexivity].
  split; [|split].
  - destruct wt as [[status|msg]|]; run; observe; reflexivity.
  - destruct wt as [[status|msg]|]; run; observe; reflexivity.
  - intros seen rest.
    destruct wt as [[status|msg]|]; run; intros Hsplit Hseen;
      split_prefix seen Hsplit; revert Hseen; observe; intros Hseen;
      try congruence; repeat split.
Qed.

Lemma Start_stores_before_exited_witness :
  let r := Start_completed {| client := remote_exiting 0 |} (a_command "echo ok") in
  count is_store_Exited (call_trace r ++ background_trace r) = 1%nat
  /\ count is_store_ExitStatus (call_trace r ++ background_trace r) = 1%nat.
Proof.
  intros r.
  destruct (Start_stores_before_exited {| client := remote_exiting 0 |}
              (a_command "echo ok") eq_refl) as (Hok & _).
  destruct (Hok eq_refl) as (Hflag & Hstatus & _).
  split; [exact Hflag | exact Hstatus].
Defined.

(** Not every call stores each field exactly once: when the command exits with status 7
    the exit status is stored twice, and when the pseudo-terminal is
    refused neither field is stored at all. *)
Lemma Start_stores_exit_status_twice :
  (let r := Start_completed {| client := remote_exiting 7 |} (a_command "exit 7") in
   count is_store_ExitStatus (call_trace r ++ background_trace r) = 2%nat)
  /\ (let r := Start_completed {| client := remote_refusing_pty |} (a_command "exit 7") in
      count is_store_ExitStatus (call_trace r ++ background_trace r) = 0%nat
      /\ count is_store_Exited (call_trace r ++ background_trace r) = 0%nat).
Proof. repeat split. Qed.

(** C3: a call of [Start] that obtained a session and then fails, on the
    pseudo-terminal or on the start of the command, returns the error
    with the session still open: the call does not close it and spawns
    no goroutine that would. *)
Theorem Start_leaves_session_open_on_error (c : comm) (cmd : RemoteCmd)
    (s : session) (e : error) :
  NewSession_result (client c) = inr s ->
  RequestPty_result (client c) = Some e
  \/ (RequestPty_result (client c) = None /\ Start_result (client c) = Some e) ->
  let r := Start_completed c cmd in
  returned r = Result (Some e)
  /\ sessions_created (call_trace r) = [s]
  /\ act_spawned (Start c cmd) = []
  /\ count (is_session_close s) (call_trace r ++ background_trace r) = 0%nat.
Proof.
  intros Hs Hfail r. subst r. open_conn c. subst.
  destruct Hfail as [->|[-> ->]]; run; observe; repeat split.
Qed.

Lemma Start_leaves_session_open_on_error_witness :
  let r := Start_completed {| client := remote_refusing_pty |} (a_command "echo ok") in
  sessions_created (call_trace r) = [1%nat]
  /\ count (is_session_close 1%nat) (call_trace r ++ background_trace r) = 0%nat.
Proof.
  intros r.
  destruct (Start_leaves_session_open_on_error {| client := remote_refusing_pty |}
              (a_command "echo ok") 1%nat
              (OtherError "ssh: could not execute command pty-req")
              eq_refl (or_introl eq_refl)) as (_ & Hcreated & _ & Hclosed).
  split; [exact Hcreated | exact Hclosed].
Defined.

(** Where the sessions are closed: [Upload] closes its session exactly
    once on every path, and [Start] closes it, in the goroutine, when the
    command was started. *)
Lemma Upload_closes_session_once (c : comm) (path : string) (input : Reader) (s : session) :
  NewSession_result (client c) = inr s ->
  let tr := act_trace (Upload c path input) in
  sessions_created tr = [s] /\ count (is_session_close s) tr = 1%nat.
Proof.
  intros Hs tr. subst tr. open_conn c. destruct input as [bs re]. simpl in *. subst.
  destruct sp as [e|p];
    [|destruct st as [e|];
      [|destruct re as [e|]; [|destruct bs as [|b bs], wt as [[status|msg]|]]]];
    run; observe; split; reflexivity.
Qed.

Lemma Start_closes_session_when_started (c : comm) (cmd : RemoteCmd) (s : session) :
  NewSession_result (client c) = inr s ->
  RequestPty_result (client c) = None ->
  Start_result (client c) = None ->
  let r := Start_completed c cmd in
  count (is_session_close s) (call_trace r ++ background_trace r) = 1%nat.
Proof.
  intros Hs Hpty Hst r. subst r. open_conn c. subst.
  destruct wt as [[status|msg]|]; run; observe; reflexivity.
Qed.

(** C7: when the session, the pseudo-terminal or the start of the command
    fails, [Start] returns that error, spawns no goroutine and stores
    nothing in the command object; when the three succeed, [Start]
    returns no error, whatever the wait on the command gives later. *)
Theorem Start_returns_setup_errors_only (c : comm) (cmd : RemoteCmd) :
  let r := Start_completed c cmd in
  let not_started (e : error) :=
    returned r = Result (Some e)
    /\ act_spawned (Start c cmd) = []
    /\ background_trace r = []
    /\ count is_store_Exited (call_trace r) = 0%nat
    /\ count is_store_ExitStatus (call_trace r) = 0%nat
    /\ final_cmd r = cmd in
  (forall e, NewSession_result (client c) = inl e -> not_started e)
  /\ (forall s e,
        NewSession_result (client c) = inr s ->
        RequestPty_result (client c) = Some e -> not_started e)
  /\ (forall s e,
        NewSession_result (client c) = inr s ->
        RequestPty_result (client c) = None ->
        Start_result (client c) = Some e -> not_started e)
  /\ (forall s,
        NewSession_result (client c) = inr s ->
        RequestPty_result (client c) = None ->
        Start_result (client c) = None ->
        returned r = Result None /\ length (act_spawned (Start c cmd)) = 1%nat).
Proof.
  intros r not_started. subst r not_started. open_conn c.
  split; [|split; [|split]].
  - intros e ->. run; observe; repeat split.
  - intros s e -> ->. run; observe; repeat split.
  - intros s e -> -> ->. run; observe; repeat split.
  - intros s -> -> ->. destruct wt as [[status|msg]|]; run; split; reflexivity.
Qed.

Lemma Start_returns_setup_errors_only_witness :
  returned (Start_completed {| client := remote_refusing_session |} (a_command "echo ok"))
    = Result (Some (OtherError "ssh: unexpected packet"))
  /\ final_cmd (Start_completed {| client := remote_refusing_pty |} (a_command "echo ok"))
     = a_command "echo ok"
  /\ act_spawned (Start {| client := remote_refusing_start |} (a_command "echo ok")) = []
  /\ returned (Start_completed {| client := remote_exiting 7 |} (a_command "exit 7"))
     = Result None.
Proof.
  split; [|split; [|split]].
  - destruct (Start_returns_setup_errors_only {| client := remote_refusing_session |}
                (a_command "echo ok")) as (H & _).
    exact (proj1 (H _ eq_refl)).
  - destruct (Start_returns_setup_errors_only {| client := remote_refusing_pty |}
                (a_command "echo ok")) as (_ & H & _).
    exact (proj2 (proj2 (proj2 (proj2 (proj2 (H 1%nat _ eq_refl eq_refl)))))).
  - destruct (Start_returns_setup_errors_only {| client := remote_refusing_start |}
                (a_command "echo ok")) as (_ & _ & H & _).
    exact (proj1 (proj2 (H 1%nat _ eq_refl eq_refl eq_refl))).
  - destruct (Start_returns_setup_errors_only {| client := remote_exiting 7 |}
                (a_command "exit 7")) as (_ & _ & _ & H).
    exact (proj1 (H 1%nat eq_refl eq_refl eq_refl)).
Defined.

(** C8, at the call the code makes: on the session it obtained, [Start]
    requests one pseudo-terminal, of type ["xterm"], echo off and both
    speeds at 14400 and no other mode, and when the request is granted it
    starts exactly one command, the command text followed by one newline,
    and none when the request is refused.  The dimensions 80 and 40 are
    passed in the wrong order for a terminal 80 wide and 40 high: in
    [RequestPty(term, h, w, termmodes)] the 80 lands on the height [h]
    and the 40 on the width [w]. *)
Theorem Start_requests_pty_and_starts (c : comm) (cmd : RemoteCmd) (s : session) :
  NewSession_result (client c) = inr s ->
  let tr := act_trace (Start c cmd) in
  (exists req,
     ptys_requested s tr = [req]
     /\ ssh.term req = "xterm" /\ ssh.h req = 80 /\ ssh.w req = 40
     /\ ssh.termmodes req !! ssh.ECHO = Some 0
     /\ ssh.termmodes req !! ssh.TTY_OP_ISPEED = Some 14400
     /\ ssh.termmodes req !! ssh.TTY_OP_OSPEED = Some 14400
     /\ size (ssh.termmodes req) = 3%nat)
  /\ (RequestPty_result (client c) = None ->
      commands_started s tr = [Command cmd +:+ LF])
  /\ (RequestPty_result (client c) <> None -> commands_started s tr = []).
Proof.
  intros Hs tr. subst tr. open_conn c. subst.
  split; [|split].
  - destruct pty as [e|]; [|destruct st as [e|]]; run; observe;
      eexists; (split; [reflexivity|]); repeat split; vm_compute; reflexivity.
  - intros ->. destruct st as [e|]; run; observe; reflexivity.
  - intros Hne. destruct pty as [e|]; [|congruence]. run; observe; reflexivity.
Qed.

Lemma Start_requests_pty_and_starts_witness :
  let tr := act_trace (Start {| client := remote_exiting 0 |} (a_command "echo ok")) in
  commands_started 1%nat tr = ["echo ok" +:+ LF]
  /\ map (fun req => (ssh.term req, ssh.h req, ssh.w req)) (ptys_requested 1%nat tr)
     = [("xterm", 80, 40)].
Proof.
  intros tr.
  destruct (Start_requests_pty_and_starts {| client := remote_exiting 0 |}
              (a_command "echo ok") 1%nat eq_refl)
    as ((req & Hreq & Hterm & Hh & Hw & _) & Hcmd & _).
  split; [exact (Hcmd eq_refl)|].
  fold tr in Hreq. rewrite Hreq. simpl. now rewrite Hterm, Hh, Hw.
Defined.

(** The dimensions are not 80 wide by 40 high: the pseudo-terminal [Start] requests
    for ["echo ok"] is 40 wide and 80 high, and none that is 80 wide and
    40 high is requested. *)
Lemma Start_pty_is_80_high_40_wide :
  let tr := act_trace (Start {| client := remote_exiting 0 |} (a_command "echo ok")) in
  map (fun req => (ssh.w req, ssh.h req)) (ptys_requested 1%nat tr) = [(40, 80)]
  /\ ~ (exists req, req ∈ ptys_requested 1%nat tr /\ ssh.w req = 80 /\ ssh.h req = 40).
Proof.
  split; [reflexivity|].
  intros (req & Hin & Hw & _). vm_compute in Hin.
  apply list_elem_of_singleton in Hin. subst req. discriminate Hw.
Qed.

(** * More of the communicator *)

(** ** Orders of events *)

Lemma forallb_not_count (P : event -> bool) (tr : list event) :
  forallb (fun x => negb (P x)) tr = true -> count P tr = 0%nat.
Proof.
  unfold count. induction tr as [|e tr IH]; simpl; [reflexivity|].
  destruct (P e); simpl; [discriminate | exact IH].
Qed.

Lemma never_after_decided (P Q : event -> bool) (tr : list event) :
  never_after_b P Q tr = true -> never_after P Q tr.
Proof.
  induction tr as [|x tr IH]; intros Hb pre e post Hsplit HQ.
  - destruct pre; discriminate.
  - simpl in Hb. apply andb_prop in Hb as [Hhere Hrest].
    destruct pre as [|y pre]; simpl in Hsplit; injection Hsplit as -> ->.
    + rewrite HQ in Hhere. simpl in Hhere. now apply forallb_not_count.
    + exact (IH Hrest pre e post eq_refl HQ).
Qed.

Lemma always_before_decided_from (P Q : event -> bool) (tr : list event) (seen : bool) :
  always_before_b P Q seen tr = true ->
  forall pre e post, tr = pre ++ e :: post -> Q e = true ->
    seen = true \/ (1 <= count P pre)%nat.
Proof.
  revert seen. induction tr as [|x tr IH]; intros seen Hb pre e post Hsplit HQ.
  - destruct pre; discriminate.
  - simpl in Hb. apply andb_prop in Hb as [Hhere Hrest].
    destruct pre as [|y pre]; simpl in Hsplit; injection Hsplit as -> ->.
    + rewrite HQ in Hhere. simpl in Hhere. now left.
    + destruct (IH _ Hrest pre e post eq_refl HQ) as [Hseen|Hcount].
      * apply orb_prop in Hseen as [->|Hy]; [now left | right].
        unfold count. simpl. rewrite Hy. simpl. lia.
      * right. unfold count in *. simpl. destruct (P y); simpl; lia.
Qed.

Lemma always_before_decided (P Q : event -> bool) (tr : list event) :
  always_before_b P Q false tr = true -> always_before P Q tr.
Proof.
  intros Hb pre e post Hsplit HQ.
  destruct (always_before_decided_from P Q tr false Hb pre e post Hsplit HQ);
    [discriminate | assumption].
Qed.

(** Deciding an order on a trace whose handles are variables. *)
Ltac decide_order_step :=
  cbn [never_after_b always_before_b forallb negb orb andb fst snd app
       is_pipe_close is_session_close is_write is_wait is_store_ExitStatus
       is_store_Exited is_request_pty is_start is_set_stdin is_set_stream
       is_pipe_event].

Ltac decide_order :=
  first [apply never_after_decided | apply always_before_decided];
  decide_order_step; rewrite ?Nat.eqb_refl; decide_order_step; reflexivity.

(** The paths of [Upload], one goal for each. *)
Ltac upload_paths ns sp st re bs wt :=
  destruct ns as [?e|?s];
  [|destruct sp as [?e|?p];
    [|destruct st as [?e|];
      [|destruct re as [?e|];
        [|destruct bs as [|?b ?bs], wt as [[?status|?msg]|]]]]].

(** ** [Upload], on every path *)

(** X1: [Upload] returns the error of the first step that fails, in the
    order session, pipe, start of the receiver, reading of the source,
    wait; it returns [nil] when the five succeed, and never panics. *)
Theorem Upload_returns_first_error (c : comm) (path : string) (input : Reader) :
  act_outcome (Upload c path input)
  = Result
      match NewSession_result (client c) with
      | inl e => Some e
      | inr _ =>
          match StdinPipe_result (client c) with
          | inl e => Some e
          | inr _ =>
              match Start_result (client c) with
              | Some e => Some e
              | None =>
                  match reader_err input with
                  | Some e => Some e
                  | None => Wait_result (client c)
                  end
              end
          end
      end.
Proof.
  open_conn c. destruct input as [bs re]. simpl.
  upload_paths ns sp st re bs wt; run; reflexivity.
Qed.

(** X2: When the session, the pipe, the start of the receiver or the reading
    of the source fails, [Upload] writes nothing on the pipe and does not
    wait for the receiver; this holds as well when the source fails after
    the receiver was started. *)
Theorem Upload_writes_nothing_on_early_error (c : comm) (path : string) (input : Reader) :
  (exists e, NewSession_result (client c) = inl e)
  \/ (exists e, StdinPipe_result (client c) = inl e)
  \/ (exists e, Start_result (client c) = Some e)
  \/ (exists e, reader_err input = Some e) ->
  let tr := act_trace (Upload c path input) in
  count is_write tr = 0%nat /\ count is_wait tr = 0%nat.
Proof.
  intros Hfail tr. subst tr. open_conn c. destruct input as [bs re]. simpl in *.
  upload_paths ns sp st re bs wt; run; observe; try (split; reflexivity);
    exfalso; destruct Hfail as [[e H]|[[e H]|[[e H]|[e H]]]]; discriminate H.
Qed.

Lemma Upload_writes_nothing_on_early_error_witness :
  let tr := act_trace (Upload {| client := remote_exiting 0 |} "/home/u/out.txt"
                         (a_failing_reader "hel")) in
  commands_started 1%nat tr = ["scp -vt /home/u"]
  /\ count is_write tr = 0%nat /\ count is_wait tr = 0%nat.
Proof.
  intros tr. split; [reflexivity|].
  apply (Upload_writes_nothing_on_early_error {| client := remote_exiting 0 |}
           "/home/u/out.txt" (a_failing_reader "hel")).
  right. right. right. eexists. reflexivity.
Defined.

(** X3: On every path of [Upload] that obtained a session, the close of the
    session is the last event; when the pipe was obtained, it is closed
    before the session is, and nothing is written on it after its
    close. *)
Theorem Upload_closes_pipe_then_session (c : comm) (path : string) (input : Reader)
    (s : session) :
  NewSession_result (client c) = inr s ->
  let tr := act_trace (Upload c path input) in
  last tr = Some (EvSessionClose s)
  /\ forall p, StdinPipe_result (client c) = inr p ->
       always_before (is_pipe_close p) (is_session_close s) tr
       /\ never_after (is_pipe_close p) (is_session_close s) tr
       /\ never_after is_write (is_pipe_close p) tr.
Proof.
  intros Hs tr. subst tr. open_conn c. destruct input as [bs re]. simpl in *. subst.
  split.
  - destruct sp as [e|p];
      [|destruct st as [e|];
        [|destruct re as [e|]; [|destruct bs as [|b bs], wt as [[status|msg]|]]]];
      run; reflexivity.
  - intros p ->.
    destruct st as [e|];
      [|destruct re as [e|]; [|destruct bs as [|b bs], wt as [[status|msg]|]]];
      run; (split; [|split]); decide_order.
Qed.

Lemma Upload_closes_pipe_then_session_witness :
  let tr := act_trace (Upload {| client := remote_refusing_start |} "/home/u/out.txt"
                         (a_reader "hello")) in
  last tr = Some (EvSessionClose 1%nat)
  /\ always_before (is_pipe_close 2%nat) (is_session_close 1%nat) tr.
Proof.
  intros tr.
  destruct (Upload_closes_pipe_then_session {| client := remote_refusing_start |}
              "/home/u/out.txt" (a_reader "hello") 1%nat eq_refl) as (Hlast & Hpipe).
  split; [exact Hlast | exact (proj1 (Hpipe 2%nat eq_refl))].
Defined.

(** X4: When [Upload] waits for the receiver, it has closed the stdin pipe
    before, so that the receiver has seen the end of its input; it waits
    at most once, and after the wait it neither writes nor closes the
    pipe. *)
Theorem Upload_closes_stdin_before_wait (c : comm) (path : string) (input : Reader)
    (s : session) (p : pipe) :
  NewSession_result (client c) = inr s ->
  StdinPipe_result (client c) = inr p ->
  let tr := act_trace (Upload c path input) in
  always_before (is_pipe_close p) is_wait tr
  /\ never_after is_write is_wait tr
  /\ never_after (is_pipe_close p) is_wait tr
  /\ (count is_wait tr <= 1)%nat.
Proof.
  intros Hs Hp tr. subst tr. open_conn c. destruct input as [bs re]. simpl in *. subst.
  destruct st as [e|];
    [|destruct re as [e|]; [|destruct bs as [|b bs], wt as [[status|msg]|]]];
    run;
    (split; [|split; [|split]];
     [decide_order | decide_order | decide_order
     | observe; cbn [is_wait List.filter length]; lia]).
Qed.

Lemma Upload_closes_stdin_before_wait_witness :
  let tr := act_trace (Upload {| client := remote_exiting 0 |} "/home/u/out.txt"
                         (a_reader "hello")) in
  count is_wait tr = 1%nat /\ always_before (is_pipe_close 2%nat) is_wait tr.
Proof.
  intros tr. split; [reflexivity|].
  exact (proj1 (Upload_closes_stdin_before_wait {| client := remote_exiting 0 |}
                  "/home/u/out.txt" (a_reader "hello") 1%nat 2%nat eq_refl eq_refl)).
Defined.

(** X5: [Upload] never requests a pseudo-terminal, never sets the [Stdin] of
    its session (the input goes through the pipe), stores nothing in a
    command object and spawns no goroutine; it starts at most one
    command and creates at most one session and one pipe. *)
Theorem Upload_only_copies (c : comm) (path : string) (input : Reader) :
  let a := Upload c path input in
  count is_request_pty (act_trace a) = 0%nat
  /\ count is_set_stdin (act_trace a) = 0%nat
  /\ count is_store_ExitStatus (act_trace a) = 0%nat
  /\ count is_store_Exited (act_trace a) = 0%nat
  /\ act_spawned a = []
  /\ (count is_start (act_trace a) <= 1)%nat
  /\ (length (sessions_created (act_trace a)) <= 1)%nat
  /\ (length (pipes_opened (act_trace a)) <= 1)%nat.
Proof.
  intros a. subst a. open_conn c. destruct input as [bs re]. simpl.
  upload_paths ns sp st re bs wt; run; observe;
    cbn [is_request_pty is_set_stdin is_start List.filter length];
    repeat split; lia.
Qed.

(** ** The directory and the file name of [Upload] *)

Lemma Upload_command (c : comm) (path : string) (input : Reader) (s : session) (p : pipe) :
  NewSession_result (client c) = inr s ->
  StdinPipe_result (client c) = inr p ->
  commands_started s (act_trace (Upload c path input)) = ["scp -vt " +:+ filepath.Dir path].
Proof.
  intros Hs Hp. open_conn c. destruct input as [bs re]. simpl in *. subst.
  destruct st as [e|];
    [|destruct re as [e|]; [|destruct bs as [|b bs], wt as [[status|msg]|]]];
    run; observe; reflexivity.
Qed.

Lemma Upload_control_line (c : comm) (path : string) (input : Reader)
    (s : session) (p : pipe) :
  NewSession_result (client c) = inr s ->
  StdinPipe_result (client c) = inr p ->
  Start_result (client c) = None ->
  reader_err input = None ->
  head (writes_requested p (act_trace (Upload c path input)))
  = Some (bytes_of ("C0644 " +:+ fmt.Itoa (Z.of_nat (length (reader_bytes input)))
                    +:+ " " +:+ filepath.Base path +:+ LF)).
Proof.
  intros Hs Hp Hst Hin. open_conn c. destruct input as [bs re]. simpl in *. subst.
  destruct bs as [|b bs], wt as [[status|msg]|]; run; observe;
    now rewrite Sprintln_control_line.
Qed.

Lemma upto_sep_no_sep (l : list ascii) : no_sep (filepath.upto_sep l).
Proof.
  induction l as [|ch l IH]; simpl; [constructor|].
  destruct (filepath.IsPathSeparator ch) eqn:E; constructor; assumption.
Qed.

Lemma upto_sep_all (l : list ascii) : no_sep l -> filepath.upto_sep l = l.
Proof. induction 1 as [|ch l Hch _ IH]; simpl; [reflexivity | now rewrite Hch, IH]. Qed.

Lemma from_sep_none (l : list ascii) : no_sep l -> filepath.from_sep l = [].
Proof. induction 1 as [|ch l Hch _ IH]; simpl; [reflexivity | now rewrite Hch]. Qed.

Lemma drop_seps_head (l : list ascii) :
  match filepath.drop_seps l with
  | [] => all_sep l
  | ch :: _ => filepath.IsPathSeparator ch = false
  end.
Proof.
  induction l as [|ch l IH]; simpl; [constructor|].
  destruct (filepath.IsPathSeparator ch) eqn:E; [|exact E].
  destruct (filepath.drop_seps l); [now constructor | exact IH].
Qed.

Lemma all_sep_rev (l : list ascii) : all_sep (rev l) -> all_sep l.
Proof. intros H. rewrite <- (rev_involutive l). now apply List.Forall_rev. Qed.

(** The shape of a last element: not empty; without separator, or the
    single separator of a path of separators only. *)
Lemma Base_chars_shape (path : list ascii) :
  filepath.Base_chars path <> []
  /\ (no_sep (filepath.Base_chars path)
      \/ (filepath.Base_chars path = ["/"%char] /\ path <> [] /\ all_sep path)).
Proof.
  destruct path as [|c0 path0]; [split; [discriminate | left; repeat constructor]|].
  remember (c0 :: path0) as path eqn:Epath.
  assert (Hne : path <> []) by (subst; discriminate).
  rewrite Base_chars_nonempty by assumption. clear Epath.
  pose proof (drop_seps_head (rev path)) as Hhead.
  pose proof (upto_sep_no_sep (filepath.drop_seps (rev path))) as Hno.
  apply no_sep_rev in Hno.
  destruct (rev (filepath.upto_sep (filepath.drop_seps (rev path)))) as [|ch l] eqn:E.
  - split; [discriminate|]. right. split; [reflexivity|]. split; [assumption|].
    apply (f_equal (@rev ascii)) in E. rewrite rev_involutive in E. simpl in E.
    destruct (filepath.drop_seps (rev path)) as [|ch l]; [now apply all_sep_rev|].
    simpl in E. rewrite Hhead in E. discriminate.
  - split; [discriminate | now left].
Qed.

Lemma chars_of_chars (l : list ascii) : chars (string_of_list_ascii l) = l.
Proof. apply list_ascii_of_string_of_list_ascii. Qed.

Lemma string_of_chars (s : string) : string_of_list_ascii (chars s) = s.
Proof. apply string_of_list_ascii_of_string. Qed.

Lemma chars_nil (s : string) : chars s = [] -> s = "".
Proof. now destruct s. Qed.

(** X6: The file name [Upload] puts in the control line is one path element:
    it is never empty, and it holds no separator, but for a remote path
    made of separators only, whose name is ["/"]. *)
Theorem Upload_file_name_is_one_element (c : comm) (path : string) (input : Reader)
    (s : session) (p : pipe) :
  NewSession_result (client c) = inr s ->
  StdinPipe_result (client c) = inr p ->
  Start_result (client c) = None ->
  reader_err input = None ->
  exists name,
    head (writes_requested p (act_trace (Upload c path input)))
    = Some (bytes_of ("C0644 " +:+ fmt.Itoa (Z.of_nat (length (reader_bytes input)))
                      +:+ " " +:+ name +:+ LF))
    /\ name <> ""
    /\ (no_sep (chars name)
        \/ (name = "/" /\ path <> "" /\ all_sep (chars path))).
Proof.
  intros Hs Hp Hst Hin. exists (filepath.Base path).
  split; [now apply (Upload_control_line c path input s p)|].
  destruct (Base_chars_shape (chars path)) as (Hne & Hshape).
  unfold filepath.Base. fold (chars path). split.
  - intros E. apply Hne. apply (f_equal chars) in E. now rewrite chars_of_chars in E.
  - rewrite chars_of_chars. destruct Hshape as [Hno|(E & Hp' & Hall)]; [now left|].
    right. rewrite E. split; [reflexivity|]. split; [|assumption].
    intros ->. now apply Hp'.
Qed.

Lemma Upload_file_name_is_one_element_witness :
  exists name,
    head (writes_requested 2%nat
            (act_trace (Upload {| client := remote_exiting 0 |} "/srv/www//" (a_reader "hello"))))
    = Some (bytes_of ("C0644 5 " +:+ name +:+ LF))
    /\ name <> "".
Proof.
  destruct (Upload_file_name_is_one_element {| client := remote_exiting 0 |} "/srv/www//"
              (a_reader "hello") 1%nat 2%nat eq_refl eq_refl eq_refl eq_refl)
    as (name & Hline & Hne & _).
  exists name. split; [exact Hline | exact Hne].
Defined.

(** X7: A remote path without separator, the empty path included, is sent to
    the directory ["."] of the remote side: the command started is
    ["scp -vt ."]; the file name is the path itself, and ["."] for the
    empty path. *)
Theorem Upload_bare_name_goes_to_dot (c : comm) (path : string) (input : Reader)
    (s : session) (p : pipe) :
  NewSession_result (client c) = inr s ->
  StdinPipe_result (client c) = inr p ->
  no_sep (chars path) ->
  commands_started s (act_trace (Upload c path input)) = ["scp -vt ."]
  /\ filepath.Base path = match path with "" => "." | _ => path end.
Proof.
  intros Hs Hp Hno. split.
  - rewrite (Upload_command c path input s p Hs Hp). do 2 f_equal.
    unfold filepath.Dir, filepath.Dir_chars. fold (chars path).
    now rewrite from_sep_none by now apply no_sep_rev.
  - destruct path as [|ch path]; [reflexivity|].
    unfold filepath.Base. fold (chars (String ch path)).
    rewrite Base_chars_nonempty by discriminate.
    assert (Hrev : rev (chars (String ch path)) <> []).
    { intros E. apply (f_equal (@rev ascii)) in E. now rewrite rev_involutive in E. }
    rewrite <- (app_nil_r (rev (chars (String ch path)))).
    rewrite drop_seps_no_sep by auto using no_sep_rev.
    rewrite app_nil_r, upto_sep_all, rev_involutive by auto using no_sep_rev.
    simpl. now rewrite string_of_chars.
Qed.

Lemma Upload_bare_name_goes_to_dot_witness :
  commands_started 1%nat
    (act_trace (Upload {| client := remote_exiting 0 |} "out.txt" (a_reader "hello")))
  = ["scp -vt ."]
  /\ filepath.Base "out.txt" = "out.txt".
Proof.
  apply (Upload_bare_name_goes_to_dot {| client := remote_exiting 0 |} "out.txt"
           (a_reader "hello") 1%nat 2%nat eq_refl eq_refl).
  repeat constructor.
Defined.

Lemma elements_from_snoc (cur l : list ascii) :
  filepath.elements_from cur (l ++ ["/"%char]) = filepath.elements_from cur l ++ [[]].
Proof.
  revert cur. induction l as [|ch l IH]; intros cur; simpl; [reflexivity|].
  destruct (filepath.IsPathSeparator ch); simpl; now rewrite IH.
Qed.

Lemma Clean_chars_snoc (path : list ascii) :
  path <> [] -> filepath.Clean_chars (path ++ ["/"%char]) = filepath.Clean_chars path.
Proof.
  destruct path as [|c0 path]; [contradiction|]. intros _.
  assert (E : filepath.elements ((c0 :: path) ++ ["/"%char])
              = filepath.elements (c0 :: path) ++ [[]]) by apply elements_from_snoc.
  rewrite <- app_comm_cons in *. unfold filepath.Clean_chars.
  rewrite E, foldl_app. simpl foldl at 1.
  destruct (foldl _ _ _) as [out protected]. reflexivity.
Qed.

Lemma Base_chars_snoc (path : list ascii) :
  path <> [] -> filepath.Base_chars (path ++ ["/"%char]) = filepath.Base_chars path.
Proof.
  intros Hne. rewrite !Base_chars_nonempty by (try assumption; now destruct path).
  now rewrite rev_app_distr.
Qed.

(** X8: A remote path that ends with a separator names a directory, and
    [Upload] sends the file into that directory under the directory's
    own name: for a path [path/] the receiver is started on the cleaned
    [path] and the file name is the last element of [path]. *)
Theorem Upload_trailing_separator (c : comm) (path : string) (input : Reader)
    (s : session) (p : pipe) :
  NewSession_result (client c) = inr s ->
  StdinPipe_result (client c) = inr p ->
  path <> "" ->
  commands_started s (act_trace (Upload c (path +:+ "/") input))
  = ["scp -vt " +:+ filepath.Clean path]
  /\ filepath.Base (path +:+ "/") = filepath.Base path.
Proof.
  intros Hs Hp Hne.
  assert (Hchars : chars path <> []) by (intros E; now apply Hne, chars_nil).
  split.
  - rewrite (Upload_command c _ input s p Hs Hp). do 2 f_equal.
    unfold filepath.Dir, filepath.Clean. rewrite list_ascii_of_string_app. simpl.
    fold (chars path). rewrite (Dir_chars_join (chars path) []) by constructor.
    now rewrite Clean_chars_snoc.
  - unfold filepath.Base. rewrite list_ascii_of_string_app. simpl.
    fold (chars path). now rewrite Base_chars_snoc.
Qed.

Lemma Upload_trailing_separator_witness :
  commands_started 1%nat
    (act_trace (Upload {| client := remote_exiting 0 |} "/srv/www/" (a_reader "hello")))
  = ["scp -vt /srv/www"]
  /\ filepath.Base "/srv/www/" = "www".
Proof.
  destruct (Upload_trailing_separator {| client := remote_exiting 0 |} "/srv/www"
              (a_reader "hello") 1%nat 2%nat eq_refl eq_refl) as (Hcmd & Hbase);
    [discriminate|].
  split; [exact Hcmd | exact Hbase].
Defined.

(** ** [Start], in the call and in the background *)

(** X10: On the session it obtained, [Start] first attaches the three streams
    of the command, each once and to the stream of the same name; the
    request of the pseudo-terminal and the start of the command come
    after, and no stream is attached again. *)
Theorem Start_binds_streams_first (c : comm) (cmd : RemoteCmd) (s : session) :
  NewSession_result (client c) = inr s ->
  exists rest,
    act_trace (Start c cmd)
    = [EvNewSession (inr s); EvSetStdin s (Stdin cmd); EvSetStdout s (Stdout cmd);
       EvSetStderr s (Stderr cmd)] ++ rest
    /\ count is_set_stream rest = 0%nat
    /\ (1 <= count is_request_pty rest)%nat.
Proof.
  intros Hs. open_conn c. subst.
  destruct pty as [e|]; [|destruct st as [e|]]; run;
    eexists; (split; [reflexivity|]); observe;
    cbn [is_set_stream is_request_pty List.filter length]; split; lia.
Qed.

Lemma Start_binds_streams_first_witness :
  exists rest,
    act_trace (Start {| client := remote_refusing_pty |} (a_command "echo ok"))
    = [EvNewSession (inr 1%nat); EvSetStdin 1%nat (CallerStream 0);
       EvSetStdout 1%nat (CallerStream 1); EvSetStderr 1%nat (CallerStream 2)] ++ rest
    /\ count is_set_stream rest = 0%nat.
Proof.
  destruct (Start_binds_streams_first {| client := remote_refusing_pty |}
              (a_command "echo ok") 1%nat eq_refl) as (rest & Htr & Hset & _).
  exists rest. split; [exact Htr | exact Hset].
Defined.

(** X11: The call of [Start] itself never waits for the command, never closes
    a session and never touches a pipe, and it spawns at most one
    goroutine; when the session is refused it makes no other call. *)
Theorem Start_does_not_wait (c : comm) (cmd : RemoteCmd) :
  let a := Start c cmd in
  count is_wait (act_trace a) = 0%nat
  /\ count is_pipe_event (act_trace a) = 0%nat
  /\ (forall s, count (is_session_close s) (act_trace a) = 0%nat)
  /\ (length (act_spawned a) <= 1)%nat
  /\ (forall e, NewSession_result (client c) = inl e ->
        act_trace a = [EvNewSession (inl e)]).
Proof.
  intros a. subst a. open_conn c.
  destruct ns as [e|s]; [|destruct pty as [e|]; [|destruct st as [e|]]]; run; observe;
    cbn [is_wait is_pipe_event List.filter length];
    (split; [|split; [|split; [|split]]]);
    try reflexivity; try lia; try discriminate; intros ? [= ->]; reflexivity.
Qed.

(** X12: The goroutine of a started command begins with the wait on the
    session of the call and ends with the close of that session: the
    command is marked as exited before its session is closed, and the
    goroutine waits once and closes once. *)
Theorem Start_goroutine_waits_then_closes (c : comm) (cmd : RemoteCmd) (s : session) :
  NewSession_result (client c) = inr s ->
  RequestPty_result (client c) = None ->
  Start_result (client c) = None ->
  let bg := background_trace (Start_completed c cmd) in
  head bg = Some (EvWait s (Wait_result (client c)))
  /\ last bg = Some (EvSessionClose s)
  /\ count is_wait bg = 1%nat
  /\ always_before is_store_Exited (is_session_close s) bg
  /\ never_after is_store_Exited (is_session_close s) bg
  /\ never_after is_store_ExitStatus (is_session_close s) bg.
Proof.
  intros Hs Hpty Hst bg. subst bg. open_conn c. subst.
  destruct wt as [[status|msg]|]; run;
    (split; [reflexivity|split; [reflexivity|split; [reflexivity|]]]);
    (split; [|split]); decide_order.
Qed.

Lemma Start_goroutine_waits_then_closes_witness :
  let bg := background_trace
              (Start_completed {| client := remote_exiting 7 |} (a_command "exit 7")) in
  head bg = Some (EvWait 1%nat (Some (ExitError 7)))
  /\ last bg = Some (EvSessionClose 1%nat).
Proof.
  intros bg.
  destruct (Start_goroutine_waits_then_closes {| client := remote_exiting 7 |}
              (a_command "exit 7") 1%nat eq_refl eq_refl eq_refl) as (Hhead & Hlast & _).
  split; [exact Hhead | exact Hlast].
Defined.

(** X13: Whatever happens, [Start] and its goroutine leave the command text
    and the three streams of the command object as they were. *)
Theorem Start_keeps_command_and_streams (c : comm) (cmd : RemoteCmd) :
  let cmd' := final_cmd (Start_completed c cmd) in
  Command cmd' = Command cmd /\ Stdin cmd' = Stdin cmd
  /\ Stdout cmd' = Stdout cmd /\ Stderr cmd' = Stderr cmd.
Proof.
  intros cmd'. subst cmd'. open_conn c.
  destruct ns as [e|s];
    [|destruct pty as [e|]; [|destruct st as [e|]; [|destruct wt as [[status|msg]|]]]];
    run; repeat split.
Qed.

(** X14: A wait that fails with an error that is not an [*ssh.ExitError] (a
    lost connection, for one) leaves the command object exactly as a
    command that succeeded does, and [Start] returns the same: the
    failure is recorded nowhere. *)
Theorem Start_other_error_looks_like_success (conn : ClientConn) (cmd : RemoteCmd)
    (msg : string) :
  let failed := Start_completed {| client := with_Wait_result conn (Some (OtherError msg)) |} cmd in
  let succeeded := Start_completed {| client := with_Wait_result conn None |} cmd in
  final_cmd failed = final_cmd succeeded /\ returned failed = returned succeeded.
Proof.
  intros failed succeeded. subst failed succeeded.
  destruct conn as [ns pty st sp wr wt]. unfold with_Wait_result. simpl.
  destruct ns as [e|s]; [|destruct pty as [e|]; [|destruct st as [e|]]];
    run; split; reflexivity.
Qed.

(** X15: [Start] never clears the exited flag.  On a command object that is
    already marked as exited, the flag reads true during the whole run,
    and when the command exits with a status that is not 0 a reader can
    see the flag true together with an exit status that is not the final
    one. *)
Theorem Start_on_finished_command (c : comm) (cmd : RemoteCmd) (s : session) :
  Exited cmd = true ->
  NewSession_result (client c) = inr s ->
  RequestPty_result (client c) = None ->
  Start_result (client c) = None ->
  let r := Start_completed c cmd in
  (forall seen rest,
     background_trace r = seen ++ rest -> Exited (replay cmd seen) = true)
  /\ (forall status,
        Wait_result (client c) = Some (ExitError status) -> status <> 0 ->
        exists seen rest,
          background_trace r = seen ++ rest
          /\ Exited (replay cmd seen) = true
          /\ ExitStatus (replay cmd seen) <> ExitStatus (final_cmd r)).
Proof.
  intros Hdone Hs Hpty Hst r. subst r. open_conn c. subst.
  split.
  - intros seen rest.
    destruct wt as [[status|msg]|]; run; intros Hsplit;
      split_prefix seen Hsplit; observe; first [assumption | reflexivity].
  - intros status -> Hne. run.
    exists [EvWait s (Some (ExitError status)); EvStoreExitStatus 0],
           [EvStoreExitStatus status; EvStoreExited true; EvSessionClose s].
    split; [reflexivity|]. observe. split; [assumption|]. intros E. now apply Hne.
Qed.

Lemma Start_on_finished_command_witness :
  let r := Start_completed {| client := remote_exiting 7 |} (a_finished_command "exit 7" 3) in
  exists seen rest,
    background_trace r = seen ++ rest
    /\ Exited (replay (a_finished_command "exit 7" 3) seen) = true
    /\ ExitStatus (replay (a_finished_command "exit 7" 3) seen) <> ExitStatus (final_cmd r).
Proof.
  intros r.
  destruct (Start_on_finished_command {| client := remote_exiting 7 |}
              (a_finished_command "exit 7" 3) 1%nat eq_refl eq_refl eq_refl eq_refl)
    as (_ & Hstale).
  apply (Hstale 7); [reflexivity | discriminate].
Defined.

(** ** [Clean] gives a clean path *)

Lemma chars_eqb_eq (a b : list ascii) : filepath.chars_eqb a b = true <-> a = b.
Proof.
  unfold filepath.chars_eqb. rewrite String.eqb_eq. split; [|now intros ->].
  intros H. apply (f_equal list_ascii_of_string) in H.
  now rewrite !list_ascii_of_string_of_list_ascii in H.
Qed.

Lemma chars_eqb_neq (a b : list ascii) : a <> b -> filepath.chars_eqb a b = false.
Proof.
  intros Hne. destruct (filepath.chars_eqb a b) eqn:E; [|reflexivity].
  now apply chars_eqb_eq in E.
Qed.

Lemma Clean_chars_render (c : ascii) (path : list ascii) :
  filepath.Clean_chars (c :: path)
  = Clean_render (filepath.IsPathSeparator c)
      (Clean_state (filepath.IsPathSeparator c) (c :: path)).1.
Proof.
  unfold filepath.Clean_chars, Clean_state, Clean_render.
  now destruct (foldl _ _ _).
Qed.

Lemma clean_step_kept (rooted : bool) (out : list (list ascii)) (protected : nat)
    (el : list ascii) :
  kept_element el -> filepath.clean_step rooted (out, protected) el = (el :: out, protected).
Proof.
  intros (Hne & _ & Hdot & Hdotdot). destruct el as [|ch el]; [contradiction|].
  unfold filepath.clean_step. now rewrite !chars_eqb_neq.
Qed.

Lemma clean_step_protects (k : nat) :
  filepath.clean_step false (repeat filepath.dotdot k, k) filepath.dotdot
  = (repeat filepath.dotdot (S k), S k).
Proof.
  unfold filepath.clean_step. cbn [filepath.dotdot].
  rewrite (chars_eqb_neq _ filepath.dot) by discriminate.
  rewrite (proj2 (chars_eqb_eq _ _) eq_refl).
  now rewrite repeat_length, Nat.ltb_irrefl.
Qed.

Lemma elements_from_no_sep (cur l : list ascii) :
  no_sep cur -> Forall no_sep (filepath.elements_from cur l).
Proof.
  revert cur. induction l as [|ch l IH]; intros cur Hcur; simpl.
  - constructor; [now apply no_sep_rev | constructor].
  - destruct (filepath.IsPathSeparator ch) eqn:E.
    + constructor; [now apply no_sep_rev | apply IH; constructor].
    + apply IH. now constructor.
Qed.

Lemma clean_step_keeps_stack (rooted : bool) (st : list (list ascii) * nat)
    (el : list ascii) :
  clean_stack rooted st -> no_sep el -> clean_stack rooted (filepath.clean_step rooted st el).
Proof.
  destruct st as [out protected]. intros (kept & Hout & Hkept & Hroot) Hel.
  simpl in Hout, Hroot. unfold filepath.clean_step.
  destruct el as [|ch el]; [now exists kept|]. remember (ch :: el) as e eqn:Ee.
  destruct (filepath.chars_eqb e filepath.dot) eqn:Edot; [now exists kept|].
  destruct (filepath.chars_eqb e filepath.dotdot) eqn:Edotdot.
  - destruct (protected <? length out)%nat eqn:Elt.
    + apply Nat.ltb_lt in Elt. rewrite Hout, length_app, repeat_length in Elt.
      destruct kept as [|top kept]; [simpl in Elt; lia|].
      exists kept. simpl. rewrite Hout. split; [reflexivity|].
      split; [now inversion Hkept | assumption].
    + apply Nat.ltb_ge in Elt. rewrite Hout, length_app, repeat_length in Elt.
      destruct kept as [|top kept]; [|simpl in Elt; lia].
      destruct rooted; [now exists []|].
      exists []. simpl in *. subst out. rewrite repeat_length.
      split; [reflexivity | split; [constructor | discriminate]].
  - exists (e :: kept). simpl. rewrite Hout. split; [reflexivity|].
    split; [|assumption]. constructor; [|assumption].
    split; [subst; discriminate|]. split; [assumption|].
    split; intros ->.
    + now rewrite (proj2 (chars_eqb_eq _ _) eq_refl) in Edot.
    + now rewrite (proj2 (chars_eqb_eq _ _) eq_refl) in Edotdot.
Qed.

Lemma Clean_state_stack (rooted : bool) (path : list ascii) :
  clean_stack rooted (Clean_state rooted path).
Proof.
  unfold Clean_state.
  assert (Hels : Forall no_sep (filepath.elements path))
    by (apply elements_from_no_sep; constructor).
  assert (Hstart : clean_stack rooted ([], 0%nat))
    by (exists []; repeat split; constructor).
  revert Hstart. generalize ([] : list (list ascii), 0%nat).
  induction Hels as [|el els Hel _ IH]; intros st Hst; simpl; [assumption|].
  apply IH. now apply clean_step_keeps_stack.
Qed.

(** The elements of a joined path are the elements that were joined. *)
Lemma elements_from_element (cur el rest : list ascii) :
  no_sep el ->
  filepath.elements_from cur (el ++ rest) = filepath.elements_from (rev el ++ cur) rest.
Proof.
  intros Hel. revert cur. induction Hel as [|ch el Hch _ IH]; intros cur; simpl.
  - reflexivity.
  - rewrite Hch, IH. now rewrite <- app_assoc.
Qed.

Lemma elements_join (els : list (list ascii)) :
  els <> [] -> Forall no_sep els -> filepath.elements (filepath.join els) = els.
Proof.
  unfold filepath.elements. intros Hne Hels.
  induction Hels as [|el els Hel Hels IH]; [contradiction|].
  destruct els as [|el' els].
  - simpl. rewrite <- (app_nil_r el) at 1.
    rewrite elements_from_element by assumption. simpl.
    now rewrite app_nil_r, rev_involutive.
  - change (filepath.join (el :: el' :: els))
      with (el ++ filepath.Separator :: filepath.join (el' :: els)).
    rewrite elements_from_element by assumption. simpl.
    rewrite app_nil_r, rev_involutive. f_equal. now apply IH.
Qed.

(** Cleaning the elements of a clean stack builds the same stack. *)
Lemma foldl_kept (rooted : bool) (kept out : list (list ascii)) (protected : nat) :
  Forall kept_element kept ->
  foldl (filepath.clean_step rooted) (out, protected) kept = (rev kept ++ out, protected).
Proof.
  intros Hkept. revert out. induction Hkept as [|el kept Hel _ IH]; intros out.
  - reflexivity.
  - cbn [foldl]. rewrite clean_step_kept by assumption. rewrite IH.
    simpl rev. now rewrite <- app_assoc.
Qed.

Lemma foldl_protected (k : nat) :
  foldl (filepath.clean_step false) ([], 0%nat) (repeat filepath.dotdot k)
  = (repeat filepath.dotdot k, k).
Proof.
  induction k as [|k IH]; [reflexivity|].
  change (repeat filepath.dotdot (S k))
    with (filepath.dotdot :: repeat filepath.dotdot k) at 1.
  rewrite repeat_cons, foldl_app, IH. cbn [foldl]. apply clean_step_protects.
Qed.

Lemma kept_no_sep (kept : list (list ascii)) :
  Forall kept_element kept -> Forall no_sep kept.
Proof.
  intros Hkept. eapply List.Forall_impl; [|exact Hkept].
  now intros el (_ & Hel & _).
Qed.

Lemma no_sep_dotdots (k : nat) : Forall no_sep (repeat filepath.dotdot k).
Proof. induction k; simpl; constructor; [repeat constructor | assumption]. Qed.

Lemma join_starts (el : list ascii) (els : list (list ascii)) :
  el <> [] -> no_sep el ->
  exists ch rest, filepath.join (el :: els) = ch :: rest
                  /\ filepath.IsPathSeparator ch = false.
Proof.
  intros Hne Hel. destruct Hel as [|ch el Hch _]; [contradiction|].
  destruct els; simpl; eauto.
Qed.

Lemma Clean_chars_idempotent (path : list ascii) :
  filepath.Clean_chars (filepath.Clean_chars path) = filepath.Clean_chars path.
Proof.
  destruct path as [|c path]; [reflexivity|].
  rewrite Clean_chars_render.
  pose proof (Clean_state_stack (filepath.IsPathSeparator c) (c :: path)) as Hstack.
  destruct (Clean_state (filepath.IsPathSeparator c) (c :: path)) as [out protected].
  destruct Hstack as (kept & Hout & Hkept & Hroot). simpl in Hout, Hroot. simpl fst.
  unfold Clean_render.
  destruct (filepath.IsPathSeparator c) eqn:Erooted.
  - rewrite (Hroot eq_refl) in Hout. simpl in Hout. rewrite app_nil_r in Hout. subst out.
    rewrite Clean_chars_render. change (filepath.IsPathSeparator filepath.Separator) with true.
    unfold Clean_render. do 3 f_equal.
    unfold Clean_state, filepath.elements. simpl filepath.elements_from.
    fold (filepath.elements (filepath.join (rev kept))).
    assert (Hcase : kept = [] \/ rev kept <> []).
    { destruct kept; [now left | right; simpl; now destruct (rev kept)]. }
    destruct Hcase as [->|Hne]; [reflexivity|].
    rewrite elements_join
      by (try assumption; apply List.Forall_rev; now apply kept_no_sep).
    cbn [foldl].
    change (filepath.clean_step true ([], 0%nat) []) with ([] : list (list ascii), 0%nat).
    rewrite foldl_kept by now apply List.Forall_rev.
    now rewrite rev_involutive, app_nil_r.
  - assert (Hrev : rev out = repeat filepath.dotdot protected ++ rev kept).
    { rewrite Hout, rev_app_distr. f_equal. apply rev_repeat. }
    assert (Hels : Forall no_sep (rev out)).
    { rewrite Hrev. apply Forall_app. split; [apply no_sep_dotdots|].
      apply List.Forall_rev. now apply kept_no_sep. }
    destruct (rev out) as [|el els] eqn:Eout; [reflexivity|].
    assert (Hel : el <> [] /\ no_sep el).
    { split; [|now inversion Hels].
      destruct protected as [|k]; simpl in Hrev.
      - assert (Hin : Forall kept_element (el :: els))
          by (rewrite Hrev; now apply List.Forall_rev).
        inversion Hin as [|? ? (Hne & _) _]. exact Hne.
      - injection Hrev as -> _. discriminate. }
    destruct (join_starts el els (proj1 Hel) (proj2 Hel)) as (ch & rest & Ejoin & Hch).
    rewrite Ejoin. rewrite Clean_chars_render, Hch. rewrite <- Ejoin.
    unfold Clean_render, Clean_state.
    rewrite elements_join by (try discriminate; assumption).
    rewrite Hrev, foldl_app, foldl_protected.
    rewrite foldl_kept by now apply List.Forall_rev.
    rewrite rev_involutive. simpl fst. rewrite <- Hout, Eout, <- ?Hrev.
    now rewrite Ejoin.
Qed.

Lemma Clean_chars_not_empty (path : list ascii) : filepath.Clean_chars path <> [].
Proof.
  destruct path as [|c path]; [discriminate|].
  rewrite Clean_chars_render. unfold Clean_render.
  destruct (filepath.IsPathSeparator c); [discriminate|].
  now destruct (filepath.join _).
Qed.

(** X9: The directory [Upload] hands to the receiver is a clean path:
    cleaning it again changes nothing, it is never empty, and sending
    another file [name] to [Dir(path)/name] starts the receiver on the
    same directory as sending to [path]. *)
Theorem Upload_directory_is_clean (c : comm) (path name : string) (input : Reader)
    (s : session) (p : pipe) :
  NewSession_result (client c) = inr s ->
  StdinPipe_result (client c) = inr p ->
  no_sep (chars name) ->
  filepath.Clean (filepath.Dir path) = filepath.Dir path
  /\ filepath.Dir path <> ""
  /\ commands_started s
       (act_trace (Upload c (filepath.Dir path +:+ "/" +:+ name) input))
     = commands_started s (act_trace (Upload c path input)).
Proof.
  intros Hs Hp Hname.
  assert (Hclean : filepath.Clean (filepath.Dir path) = filepath.Dir path).
  { unfold filepath.Clean, filepath.Dir, filepath.Dir_chars.
    now rewrite list_ascii_of_string_of_list_ascii, Clean_chars_idempotent. }
  assert (Hne : chars (filepath.Dir path) <> []).
  { unfold filepath.Dir, filepath.Dir_chars. rewrite chars_of_chars.
    apply Clean_chars_not_empty. }
  split; [exact Hclean|]. split; [intros E; apply Hne; now rewrite E|].
  rewrite !(Upload_command c _ input s p Hs Hp). do 2 f_equal.
  rewrite Dir_join by assumption. rewrite <- Hclean at 2.
  unfold filepath.Clean. rewrite list_ascii_of_string_app. simpl.
  fold (chars (filepath.Dir path)). now rewrite Clean_chars_snoc.
Qed.

Lemma Upload_directory_is_clean_witness :
  filepath.Dir "/srv//www/../data/a.txt" = "/srv/data"
  /\ commands_started 1%nat
       (act_trace (Upload {| client := remote_exiting 0 |}
                     (filepath.Dir "/srv//www/../data/a.txt" +:+ "/" +:+ "b.txt")
                     (a_reader "hello")))
     = commands_started 1%nat
         (act_trace (Upload {| client := remote_exiting 0 |} "/srv//www/../data/a.txt"
                       (a_reader "hello"))).
Proof.
  split; [reflexivity|].
  apply (Upload_directory_is_clean {| client := remote_exiting 0 |}
           "/srv//www/../data/a.txt" "b.txt" (a_reader "hello") 1%nat 2%nat
           eq_refl eq_refl).
  repeat constructor.
Defined.

(** ** More orders and losses *)

Lemma Start_does_not_wait_witness :
  act_trace (Start {| client := remote_refusing_session |} (a_command "echo ok"))
  = [EvNewSession (inl (OtherError "ssh: unexpected packet"))].
Proof.
  destruct (Start_does_not_wait {| client := remote_refusing_session |}
              (a_command "echo ok")) as (_ & _ & _ & _ & Honly).
  exact (Honly _ eq_refl).
Defined.

(** X16: [Start] starts the command at most once, after the streams were
    attached and after the request of the pseudo-terminal, and only when
    that request was granted. *)
Theorem Start_starts_after_pty (c : comm) (cmd : RemoteCmd) :
  let tr := act_trace (Start c cmd) in
  always_before is_request_pty is_start tr
  /\ always_before is_set_stream is_start tr
  /\ never_after is_request_pty is_start tr
  /\ (count is_start tr <= 1)%nat
  /\ (count is_start tr = 0%nat \/ RequestPty_result (client c) = None).
Proof.
  intros tr. subst tr. open_conn c.
  destruct ns as [e|s]; [|destruct pty as [e|]; [|destruct st as [e|]]]; run;
    (split; [decide_order|split; [decide_order|split; [decide_order|]]]);
    observe; cbn [is_start List.filter length]; (split; [lia|]); auto.
Qed.

(** X17: [Upload] does not resend what a write left out, and goes on after a
    write that failed: the bytes the pipe takes are, of the control line,
    of the payload and of the NUL byte in turn, the part that the write
    of each took; no more than three writes are made. *)
Theorem Upload_does_not_resend (c : comm) (path : string) (input : Reader)
    (s : session) (p : pipe) :
  NewSession_result (client c) = inr s ->
  StdinPipe_result (client c) = inr p ->
  Start_result (client c) = None ->
  reader_err input = None ->
  let payload := reader_bytes input in
  let line := bytes_of ("C0644 " +:+ fmt.Itoa (Z.of_nat (length payload)) +:+ " "
                        +:+ filepath.Base path +:+ LF) in
  let answer := Write_result (client c) in
  let tr := act_trace (Upload c path input) in
  bytes_taken p tr
  = take (answer 0%nat line).1 line
    ++ match payload with
       | [] => take (answer 1%nat [x00]).1 [x00]
       | _ => take (answer 1%nat payload).1 payload ++ take (answer 2%nat [x00]).1 [x00]
       end
  /\ (count is_write tr <= 3)%nat.
Proof.
  intros Hs Hp Hst Hin payload line answer tr. subst payload line answer tr.
  open_conn c. destruct input as [bs re]. simpl in *. subst.
  destruct bs as [|b bs], wt as [[status|msg]|]; run; unfold writes_before; observe;
    rewrite Sprintln_control_line, Sprint_NUL, ?app_nil_r; split; try reflexivity; lia.
Qed.

Lemma Upload_does_not_resend_witness :
  bytes_taken 2%nat
    (act_trace (Upload {| client := remote_broken_pipe |} "/home/u/out.txt" (a_reader "hello")))
  = [].
Proof.
  destruct (Upload_does_not_resend {| client := remote_broken_pipe |} "/home/u/out.txt"
              (a_reader "hello") 1%nat 2%nat eq_refl eq_refl eq_refl eq_refl) as (Htaken & _).
  exact Htaken.
Defined.
